(** * Xapiand [src/io_utils.h]: the system-call shim

    A shallow embedding of the header: the transient-retry macro
    [TEMP_FAILURE_RETRY], the errno classification [io::ignored_errorno],
    the descriptor-lifecycle macros [CHECK_*] and the inline wrappers of
    [namespace io].

    Integers ([int], [ssize_t], [off_t]) are [Z]; pointers are opaque
    addresses in [Z]; the bit masks of the tracker are combined with
    [Z.lor]/[Z.land] as the macros do with [|] and [&].  The operating
    system is a parameter: a function from a primitive call, the current
    [errno] and the kernel's state to a result, the new [errno] and the new
    kernel state. *)

From Stdlib Require Import ZArith Bool List String Lia.
From stdpp Require Import base numbers option list gmap strings.

Local Open Scope string_scope.
Local Open Scope list_scope.
Local Open Scope Z_scope.

(** ** Platform headers and build configuration *)

(** The values [<errno.h>] gives to the names the header uses.  [ENONET] is
    Linux-specific ([#ifdef ENONET], line 114). *)
Record errno_h := {
  EINTR : Z;
  EAGAIN : Z;
  EWOULDBLOCK : Z;
  EPIPE : Z;
  EINPROGRESS : Z;
  ENETDOWN : Z;
  EPROTO : Z;
  ENOPROTOOPT : Z;
  EHOSTDOWN : Z;
  ENONET : option Z;
  EHOSTUNREACH : Z;
  EOPNOTSUPP : Z;
  ENETUNREACH : Z;
  ECONNRESET : Z
}.

(** The preprocessor symbols the header tests. *)
Record build := {
  XAPIAND_CHECK_IO_FDES : bool;
  (** [-DXAPIAND_MINIMUM_FILE_DESCRIPTOR=n], when given (line 44). *)
  D_XAPIAND_MINIMUM_FILE_DESCRIPTOR : option Z;
  HAVE_FDATASYNC : bool;
  HAVE_FSYNC : bool;
  (** The [fcntl] command [F_FULLFSYNC], where [<fcntl.h>] has it. *)
  F_FULLFSYNC : option Z;
  HAVE_FALLOCATE : bool;
  HAVE_POSIX_FADVISE : bool
}.

Definition STDERR_FILENO : Z := 2.

(** Lines 44-46. *)
Definition XAPIAND_MINIMUM_FILE_DESCRIPTOR (B : build) : Z :=
  match D_XAPIAND_MINIMUM_FILE_DESCRIPTOR B with
  | Some n => n
  | None => STDERR_FILENO + 1
  end.

(** ** The operating system *)

(** The primitives ([::name]) the wrappers delegate to, with their
    arguments. *)
Inductive syscall :=
| sys_open (path oflag mode : Z)
| sys_close (fd : Z)
| sys_unlink (path : Z)
| sys_lseek (fd offset whence : Z)
| sys_fcntl (fd cmd : Z) (args : list Z)
| sys_fstat (fd buf : Z)
| sys_dup (fd : Z)
| sys_dup2 (fd fd2 : Z)
| sys_shutdown (socket how : Z)
| sys_send (socket buffer length flags : Z)
| sys_sendto (socket buffer length flags dest_addr dest_len : Z)
| sys_recv (socket buffer length flags : Z)
| sys_socket (domain type protocol : Z)
| sys_recvfrom (socket buffer length flags address address_len : Z)
| sys_getsockopt (socket level option_name option_value option_len : Z)
| sys_setsockopt (socket level option_name option_value option_len : Z)
| sys_listen (socket backlog : Z)
| sys_accept (socket address address_len : Z)
| sys_bind (socket address address_len : Z)
| sys_connect (socket address address_len : Z)
| sys_fdatasync (fd : Z)
| sys_fsync (fd : Z)
| sys_fallocate (fd mode offset len : Z)
| sys_posix_fadvise (fd offset len advice : Z).

(** What the process did, newest first: a primitive call with its result
    and the [errno] it left, or an invocation of the tracker with its three
    masks.  The history is ghost state, there to state which call a result
    comes from. *)
Inductive event :=
| Called (c : syscall) (result errno_after : Z)
| Checked (fd check_set check_unset set : Z).

(** Why a diagnostic build stops the process. *)
Inductive diagnostic :=
| ConfigurationError (fd : Z)
| LifecycleViolation (msg : string) (fd : Z) (function : string) (line : Z).

(** The state a call runs in: the thread's [errno], the process-wide flag
    behind [ignore_intr()], the tracker's registry (descriptor to bit
    mask, absent meaning no bit), the history and the kernel. *)
Record process (kernel : Type) := {
  errno : Z;
  ignore_intr : bool;
  fdes : gmap Z Z;
  history : list event;
  os_state : kernel
}.
Arguments errno {kernel} _.
Arguments ignore_intr {kernel} _.
Arguments fdes {kernel} _.
Arguments history {kernel} _.
Arguments os_state {kernel} _.

(** A call returns a value, stops the process with a diagnostic, or is still
    looping when the fuel given to the retry loop runs out. *)
Inductive outcome (kernel A : Type) :=
| Ret (a : A) (s : process kernel)
| Abort (d : diagnostic) (s : process kernel)
| Spin (s : process kernel).
Arguments Ret {kernel A} _ _.
Arguments Abort {kernel A} _ _.
Arguments Spin {kernel A} _.

Definition final {kernel A} (o : outcome kernel A) : process kernel :=
  match o with
  | Ret _ s => s
  | Abort _ s => s
  | Spin s => s
  end.

(** The newest primitive call of a history. *)
Fixpoint last_call (h : list event) : option (syscall * Z * Z) :=
  match h with
  | [] => None
  | Called c r e :: _ => Some (c, r, e)
  | Checked _ _ _ _ :: h' => last_call h'
  end.

(** The primitive calls of a history, newest first, each with its result
    and the [errno] it left. *)
Fixpoint calls (h : list event) : list (syscall * Z * Z) :=
  match h with
  | [] => []
  | Called c r e :: h' => (c, r, e) :: calls h'
  | Checked _ _ _ _ :: h' => calls h'
  end.

(** The descriptor a diagnostic is about. *)
Definition about (d : diagnostic) : Z :=
  match d with
  | ConfigurationError fd => fd
  | LifecycleViolation _ fd _ _ => fd
  end.

(** The tracker invocations of a history. *)
Fixpoint set_masks (h : list event) : list Z :=
  match h with
  | [] => []
  | Called _ _ _ :: h' => set_masks h'
  | Checked _ _ _ set :: h' => set :: set_masks h'
  end.

(** The inline wrappers of [namespace io], with their arguments. *)
Inductive call :=
| io_unlink (path : Z)
| io_lseek (fd offset whence : Z)
| io_unchecked_fcntl (fd cmd : Z) (args : list Z)
| io_fcntl (fd cmd : Z) (args : list Z)
| io_fstat (fd buf : Z)
| io_dup (fd : Z)
| io_dup2 (fd fd2 : Z)
| io_shutdown (socket how : Z)
| io_send (socket buffer length flags : Z)
| io_sendto (socket buffer length flags dest_addr dest_len : Z)
| io_recv (socket buffer length flags : Z)
| io_socket (domain type protocol : Z)
| io_recvfrom (socket buffer length flags address address_len : Z)
| io_getsockopt (socket level option_name option_value option_len : Z)
| io_setsockopt (socket level option_name option_value option_len : Z)
| io_listen (socket backlog : Z)
| io_accept (socket address address_len : Z)
| io_bind (socket address address_len : Z)
| io_connect (socket address address_len : Z)
| io_unchecked_fsync (fd : Z)
| io_fsync (fd : Z)
| io_unchecked_full_fsync (fd : Z)
| io_full_fsync (fd : Z)
| io_fallocate (fd mode offset len : Z)
| io_fadvise (fd offset len advice : Z).

(** What a wrapper asks of the tracker before it calls the kernel: nothing,
    an open descriptor ([CHECK_OPENED]) or an open socket
    ([CHECK_OPENED_SOCKET]). *)
Inductive precheck :=
| unchecked
| opened (fd : Z)
| opened_socket (fd : Z).

(** ** Test doubles *)

(** Linux's [<asm-generic/errno.h>]. *)
Definition linux_errno : errno_h := {|
  EINTR := 4; EAGAIN := 11; EWOULDBLOCK := 11; EPIPE := 32;
  EINPROGRESS := 115; ENETDOWN := 100; EPROTO := 71; ENOPROTOOPT := 92;
  EHOSTDOWN := 112; ENONET := Some 64; EHOSTUNREACH := 113;
  EOPNOTSUPP := 95; ENETUNREACH := 101; ECONNRESET := 104 |}.

(** Darwin's [<sys/errno.h>]: no [ENONET]. *)
Definition darwin_errno : errno_h := {|
  EINTR := 4; EAGAIN := 35; EWOULDBLOCK := 35; EPIPE := 32;
  EINPROGRESS := 36; ENETDOWN := 50; EPROTO := 100; ENOPROTOOPT := 42;
  EHOSTDOWN := 64; ENONET := None; EHOSTUNREACH := 65;
  EOPNOTSUPP := 102; ENETUNREACH := 51; ECONNRESET := 54 |}.

Definition EIO : Z := 5.
Definition EBADF : Z := 9.

(** A production build on Linux, and the same with the tracker on. *)
Definition release_build : build := {|
  XAPIAND_CHECK_IO_FDES := false;
  D_XAPIAND_MINIMUM_FILE_DESCRIPTOR := None;
  HAVE_FDATASYNC := true; HAVE_FSYNC := true; F_FULLFSYNC := None;
  HAVE_FALLOCATE := true; HAVE_POSIX_FADVISE := true |}.

Definition diagnostic_build : build := {|
  XAPIAND_CHECK_IO_FDES := true;
  D_XAPIAND_MINIMUM_FILE_DESCRIPTOR := None;
  HAVE_FDATASYNC := true; HAVE_FSYNC := true; F_FULLFSYNC := None;
  HAVE_FALLOCATE := true; HAVE_POSIX_FADVISE := true |}.

(** A platform with [fsync] only: no [fdatasync], no [F_FULLFSYNC]. *)
Definition fsync_only_build : build := {|
  XAPIAND_CHECK_IO_FDES := false;
  D_XAPIAND_MINIMUM_FILE_DESCRIPTOR := None;
  HAVE_FDATASYNC := false; HAVE_FSYNC := true; F_FULLFSYNC := None;
  HAVE_FALLOCATE := false; HAVE_POSIX_FADVISE := false |}.

(** A platform with no sync primitive at all. *)
Definition bare_build : build := {|
  XAPIAND_CHECK_IO_FDES := false;
  D_XAPIAND_MINIMUM_FILE_DESCRIPTOR := None;
  HAVE_FDATASYNC := false; HAVE_FSYNC := false; F_FULLFSYNC := None;
  HAVE_FALLOCATE := false; HAVE_POSIX_FADVISE := false |}.

(** A platform with the full-durability command ([F_FULLFSYNC] is 51 on
    Darwin) next to [fsync]. *)
Definition full_fsync_build : build := {|
  XAPIAND_CHECK_IO_FDES := false;
  D_XAPIAND_MINIMUM_FILE_DESCRIPTOR := None;
  HAVE_FDATASYNC := false; HAVE_FSYNC := true; F_FULLFSYNC := Some 51;
  HAVE_FALLOCATE := false; HAVE_POSIX_FADVISE := false |}.

(** A kernel that answers from a script, whatever the call: [Done r]
    returns [r] and leaves [errno] alone, [Failed e] returns -1 and sets
    [errno] to [e].  An exhausted script fails with [EBADF]. *)
Inductive reply :=
| Done (r : Z)
| Failed (e : Z).

Definition scripted (c : syscall) (errno_before : Z) (k : list reply)
  : Z * Z * list reply :=
  match k with
  | [] => (-1, EBADF, [])
  | Done r :: k' => (r, errno_before, k')
  | Failed e :: k' => (-1, e, k')
  end.

(** A kernel that interrupts every call (4 is [EINTR] on Linux and on
    Darwin). *)
Definition storm (c : syscall) (errno_before : Z) (k : unit) : Z * Z * unit :=
  (-1, 4, k).

(** A fresh process on the scripted kernel. *)
Definition boot (flag : bool) (script : list reply) : process (list reply) :=
  {| errno := 0; ignore_intr := flag; fdes := ∅; history := [];
     os_state := script |}.

(** A process on the scripted kernel whose registry tracks one
    descriptor. *)
Definition tracking (fd bits : Z) (script : list reply)
  : process (list reply) :=
  {| errno := 0; ignore_intr := false; fdes := {[fd := bits]}; history := [];
     os_state := script |}.

(** ** The header *)

Module io.

Section Header.

Variable E : errno_h.
Variable B : build.
Context {kernel : Type}.
Variable os : syscall -> Z -> kernel -> Z * Z * kernel.

Definition io (A : Type) : Type := process kernel -> outcome kernel A.

Definition ret {A} (a : A) : io A := fun s => Ret a s.

Definition seq {A C} (m : io A) (k : A -> io C) : io C :=
  fun s =>
    match m s with
    | Ret a s' => k a s'
    | Abort d s' => Abort d s'
    | Spin s' => Spin s'
    end.

Notation "'do' x <- m ; k" := (seq m (fun x => k))
  (at level 10, x name, m at level 100, k at level 200).

(** Invoke a primitive: the kernel answers and leaves its [errno]. *)
Definition invoke (c : syscall) : io Z :=
  fun s =>
    let '(r, e, k) := os c (errno s) (os_state s) in
    Ret r {| errno := e; ignore_intr := ignore_intr s; fdes := fdes s;
             history := Called c r e :: history s; os_state := k |}.

(** Lines 49-58.  The [do ... while] loop runs its body once per unit of
    fuel; [Spin] is a loop that has not left yet. *)
Fixpoint TEMP_FAILURE_RETRY (fuel : nat) (exp : io Z) (s : process kernel)
  : outcome kernel Z :=
  match fuel with
  | O => Spin s
  | S fuel' =>
      match exp s with
      | Ret _err s' =>
          if (_err =? -1) && (errno s' =? EINTR E)
          then TEMP_FAILURE_RETRY fuel' exp s'
          else Ret _err s'
      | Abort d s' => Abort d s'
      | Spin s' => Spin s'
      end
  end.

(** The [return] statements of the [switch] of lines 98-125. *)
Inductive arm := ret_intr | ret_again | ret_tcp | ret_udp.

(** The [case] labels of lines 99-120, in order, each with the [return] it
    falls through to. *)
Definition case_labels : list (Z * arm) :=
  [(EINTR E, ret_intr);
   (EAGAIN E, ret_again)]
  ++ (if EAGAIN E =? EWOULDBLOCK E then [] else [(EWOULDBLOCK E, ret_again)])
  ++ [(EPIPE E, ret_tcp);
      (EINPROGRESS E, ret_tcp);
      (ENETDOWN E, ret_udp);
      (EPROTO E, ret_udp);
      (ENOPROTOOPT E, ret_udp);
      (EHOSTDOWN E, ret_udp)]
  ++ match ENONET E with Some v => [(v, ret_udp)] | None => [] end
  ++ [(EHOSTUNREACH E, ret_udp);
      (EOPNOTSUPP E, ret_udp);
      (ENETUNREACH E, ret_udp);
      (ECONNRESET E, ret_udp)].

(** [switch (e)]: the arm of the label equal to [e], if any. *)
Fixpoint switch (e : Z) (cases : list (Z * arm)) : option arm :=
  match cases with
  | [] => None
  | (label, a) :: rest => if e =? label then Some a else switch e rest
  end.

(** Lines 97-126.  [ignore_intr().load()] reads the flag of the state the
    call runs in. *)
Definition ignored_errorno (s : process kernel) (e : Z) (again tcp udp : bool)
  : bool :=
  match switch e case_labels with
  | Some ret_intr => ignore_intr s
  | Some ret_again => again
  | Some ret_tcp => tcp
  | Some ret_udp => udp
  | None => false
  end.

(** *** The descriptor lifecycle tracker (lines 63-81) *)

Definition OPENED : Z := 1.
Definition SOCKET : Z := 2.
Definition CLOSED : Z := 4.

(** The bits the registry holds for [fd]. *)
Definition tracked (s : process kernel) (fd : Z) : Z :=
  default 0 (fdes s !! fd).

Definition note (ev : event) (s : process kernel) : process kernel :=
  {| errno := errno s; ignore_intr := ignore_intr s; fdes := fdes s;
     history := ev :: history s; os_state := os_state s |}.

Definition register (fd bits : Z) (s : process kernel) : process kernel :=
  {| errno := errno s; ignore_intr := ignore_intr s;
     fdes := <[fd := bits]> (fdes s);
     history := history s; os_state := os_state s |}.

(** Modelled from the spec: the body of [io::check], which this header only
    declares (line 67).  A descriptor below the minimum is a configuration
    error; a tracked state that does not hold every bit of [check_set], or
    holds a bit of [check_unset], is a lifecycle violation; otherwise the
    bits of [set] are or-ed into the tracked state, and setting [CLOSED]
    also clears the open bits [OPENED] and [SOCKET].  Creation wrappers hand
    the raw result of the kernel to the macro (lines 208 and 239), and the
    spec registers on success of the call only, so the failure sentinel -1
    is let through untouched.  The [int] the function returns is dropped at
    every call site and is not modelled. *)
Definition check (msg : string) (fd check_set check_unset set : Z)
    (function : string) (line : Z) : io unit :=
  fun s0 =>
    let s := note (Checked fd check_set check_unset set) s0 in
    if fd =? -1 then Ret tt s
    else if fd <? XAPIAND_MINIMUM_FILE_DESCRIPTOR B
    then Abort (ConfigurationError fd) s
    else
      let currently := tracked s fd in
      if negb (Z.land currently check_set =? check_set)
         || negb (Z.land currently check_unset =? 0)
      then Abort (LifecycleViolation msg fd function line) s
      else
        Ret tt (register fd
                  (if Z.land set CLOSED =? 0
                   then Z.lor currently set
                   else Z.lor (Z.ldiff currently (Z.lor OPENED SOCKET)) set)
                  s).

(** [#ifdef XAPIAND_CHECK_IO_FDES]: the macros expand to a call of
    [io::check], or to nothing (lines 75-80). *)
Definition when_tracking (m : io unit) : io unit :=
  if XAPIAND_CHECK_IO_FDES B then m else ret tt.

Definition CHECK_OPEN (fd : Z) (function : string) (line : Z) : io unit :=
  when_tracking
    (check "while opening as file" fd 0 (Z.lor OPENED CLOSED) OPENED
       function line).

Definition CHECK_OPEN_SOCKET (fd : Z) (function : string) (line : Z)
  : io unit :=
  when_tracking
    (check "while opening as socket" fd 0
       (Z.lor (Z.lor OPENED SOCKET) CLOSED) (Z.lor OPENED SOCKET)
       function line).



Definition CHECK_OPENED (msg : string) (fd : Z) (function : string)
    (line : Z) : io unit :=
  when_tracking (check msg fd OPENED CLOSED 0 function line).

Definition CHECK_OPENED_SOCKET (msg : string) (fd : Z) (function : string)
    (line : Z) : io unit :=
  when_tracking
    (check msg fd (Z.lor OPENED SOCKET) CLOSED 0 function line).

(** *** The sync primitive of the platform (lines 84-91) *)

Definition __noop (_ : Z) : io Z := ret 0.

(** The primitive [__io_fsync] names, if the platform has one. *)
Definition __io_fsync_primitive : option (Z -> syscall) :=
  if HAVE_FDATASYNC B then Some sys_fdatasync
  else if HAVE_FSYNC B then Some sys_fsync
  else None.

Definition __io_fsync (fd : Z) : io Z :=
  match __io_fsync_primitive with
  | Some primitive => invoke (primitive fd)
  | None => __noop fd
  end.

(** *** The wrappers (lines 141-310) *)

Definition unlink (path : Z) : io Z :=
  invoke (sys_unlink path).

Definition lseek (fd offset whence : Z) : io Z :=
  do _ <- CHECK_OPENED "during lseek()" fd "lseek" 147;
  invoke (sys_lseek fd offset whence).

Definition unchecked_fcntl (fuel : nat) (fd cmd : Z) (args : list Z) : io Z :=
  TEMP_FAILURE_RETRY fuel (invoke (sys_fcntl fd cmd args)).

Definition fcntl (fuel : nat) (fd cmd : Z) (args : list Z) : io Z :=
  do _ <- CHECK_OPENED "during fcntl()" fd "fcntl" 160;
  unchecked_fcntl fuel fd cmd args.

Definition fstat (fd buf : Z) : io Z :=
  do _ <- CHECK_OPENED "during fstat()" fd "fstat" 166;
  invoke (sys_fstat fd buf).

Definition dup (fd : Z) : io Z :=
  do _ <- CHECK_OPENED "during dup()" fd "dup" 172;
  invoke (sys_dup fd).

Definition dup2 (fd fd2 : Z) : io Z :=
  do _ <- CHECK_OPENED "during dup2()" fd "dup2" 178;
  invoke (sys_dup2 fd fd2).

Definition shutdown (socket how : Z) : io Z :=
  do _ <- CHECK_OPENED_SOCKET "during shutdown()" socket "shutdown" 184;
  invoke (sys_shutdown socket how).

Definition send (fuel : nat) (socket buffer length flags : Z) : io Z :=
  do _ <- CHECK_OPENED_SOCKET "during send()" socket "send" 190;
  TEMP_FAILURE_RETRY fuel (invoke (sys_send socket buffer length flags)).

Definition sendto (fuel : nat)
    (socket buffer length flags dest_addr dest_len : Z) : io Z :=
  do _ <- CHECK_OPENED_SOCKET "during sendto()" socket "sendto" 196;
  TEMP_FAILURE_RETRY fuel
    (invoke (sys_sendto socket buffer length flags dest_addr dest_len)).

Definition recv (fuel : nat) (socket buffer length flags : Z) : io Z :=
  do _ <- CHECK_OPENED_SOCKET "during recv()" socket "recv" 202;
  TEMP_FAILURE_RETRY fuel (invoke (sys_recv socket buffer length flags)).

Definition socket (domain type protocol : Z) : io Z :=
  do socket <- invoke (sys_socket domain type protocol);
  do _ <- CHECK_OPEN_SOCKET socket "socket" 208;
  ret socket.

Definition recvfrom (fuel : nat)
    (socket buffer length flags address address_len : Z) : io Z :=
  do _ <- CHECK_OPENED_SOCKET "during recvfrom()" socket "recvfrom" 213;
  TEMP_FAILURE_RETRY fuel
    (invoke (sys_recvfrom socket buffer length flags address address_len)).

Definition getsockopt
    (socket level option_name option_value option_len : Z) : io Z :=
  do _ <- CHECK_OPENED_SOCKET "during getsockopt()" socket "getsockopt" 219;
  invoke (sys_getsockopt socket level option_name option_value option_len).

Definition setsockopt
    (socket level option_name option_value option_len : Z) : io Z :=
  do _ <- CHECK_OPENED_SOCKET "during setsockopt()" socket "setsockopt" 225;
  invoke (sys_setsockopt socket level option_name option_value option_len).

Definition listen (socket backlog : Z) : io Z :=
  do _ <- CHECK_OPENED_SOCKET "during listen()" socket "listen" 231;
  invoke (sys_listen socket backlog).

Definition accept (fuel : nat) (socket address address_len : Z) : io Z :=
  do _ <- CHECK_OPENED_SOCKET "during accept()" socket "accept" 237;
  do new_socket <-
    TEMP_FAILURE_RETRY fuel (invoke (sys_accept socket address address_len));
  do _ <- CHECK_OPEN_SOCKET new_socket "accept" 239;
  ret new_socket.

Definition bind (socket address address_len : Z) : io Z :=
  do _ <- CHECK_OPENED_SOCKET "during bind()" socket "bind" 245;
  invoke (sys_bind socket address address_len).

Definition connect (fuel : nat) (socket address address_len : Z) : io Z :=
  do _ <- CHECK_OPENED_SOCKET "during connect()" socket "connect" 251;
  TEMP_FAILURE_RETRY fuel (invoke (sys_connect socket address address_len)).

Definition unchecked_fsync (fuel : nat) (fd : Z) : io Z :=
  TEMP_FAILURE_RETRY fuel (__io_fsync fd).

Definition fsync (fuel : nat) (fd : Z) : io Z :=
  do _ <- CHECK_OPENED "during fsync()" fd "fsync" 262;
  unchecked_fsync fuel fd.

Definition unchecked_full_fsync (fuel : nat) (fd : Z) : io Z :=
  match F_FULLFSYNC B with
  | Some full =>
      TEMP_FAILURE_RETRY fuel (invoke (sys_fcntl fd full [0]))
  | None => TEMP_FAILURE_RETRY fuel (__io_fsync fd)
  end.

Definition full_fsync (fuel : nat) (fd : Z) : io Z :=
  do _ <- CHECK_OPENED "during full_fsync()" fd "full_fsync" 277;
  unchecked_full_fsync fuel fd.

(** Lines 283-286, the body under [HAVE_FALLOCATE].  Without it the header
    only declares the function (line 288) and this body is not the
    function's: [defined_here] tells the two builds apart. *)
Definition fallocate (fuel : nat) (fd mode offset len : Z) : io Z :=
  do _ <- CHECK_OPENED "during fallocate()" fd "fallocate" 284;
  TEMP_FAILURE_RETRY fuel (invoke (sys_fallocate fd mode offset len)).

(** Lines 292-310: [posix_fadvise(...) == 0] under [HAVE_POSIX_FADVISE],
    else the constant 0. *)
Definition fadvise (fd offset len advice : Z) : io Z :=
  if HAVE_POSIX_FADVISE B then
    do _ <- CHECK_OPENED "during fadvise()" fd "fadvise" 294;
    do r <- invoke (sys_posix_fadvise fd offset len advice);
    ret (if r =? 0 then 1 else 0)
  else
    do _ <- CHECK_OPENED "during fadvise()" fd "fadvise" 306;
    ret 0.

(** Modelled from the spec: a descriptor value may be reused by the OS
    after closing, and the tracker must treat a freshly reused integer as a
    new logical descriptor, re-entering Unopened before the next open
    (spec, section 3).  The kernel issues no number that is in use, so a
    descriptor it has just issued and that the registry holds as [CLOSED]
    is a reused one: its entry goes back to no bit.  The failure sentinel
    is no descriptor, and a build without the tracker has no registry. *)
Definition reenter (fd : Z) : io unit :=
  when_tracking
    (fun s =>
       if negb (fd =? -1) && (tracked s fd =? CLOSED)
       then Ret tt (register fd 0 s)
       else Ret tt s).

(** Modelled from the spec: [io::open], which this header only declares
    (line 131): the kernel's [open]; a number issued again after its close
    re-enters Unopened ([reenter]); then the new descriptor is registered
    as an open file ([CHECK_OPEN]), the way [io::socket] registers its
    own. *)
Definition open (path oflag mode : Z) : io Z :=
  do fd <- invoke (sys_open path oflag mode);
  do _ <- reenter fd;
  do _ <- CHECK_OPEN fd "open" 131;
  ret fd.


(** One entry point for all the wrappers the header defines. *)
Definition run (fuel : nat) (c : call) : io Z :=
  match c with
  | io_unlink path => unlink path
  | io_lseek fd offset whence => lseek fd offset whence
  | io_unchecked_fcntl fd cmd args => unchecked_fcntl fuel fd cmd args
  | io_fcntl fd cmd args => fcntl fuel fd cmd args
  | io_fstat fd buf => fstat fd buf
  | io_dup fd => dup fd
  | io_dup2 fd fd2 => dup2 fd fd2
  | io_shutdown socket how => shutdown socket how
  | io_send socket buffer length flags => send fuel socket buffer length flags
  | io_sendto socket buffer length flags dest_addr dest_len =>
      sendto fuel socket buffer length flags dest_addr dest_len
  | io_recv socket buffer length flags => recv fuel socket buffer length flags
  | io_socket domain type protocol => socket domain type protocol
  | io_recvfrom socket buffer length flags address address_len =>
      recvfrom fuel socket buffer length flags address address_len
  | io_getsockopt socket level option_name option_value option_len =>
      getsockopt socket level option_name option_value option_len
  | io_setsockopt socket level option_name option_value option_len =>
      setsockopt socket level option_name option_value option_len
  | io_listen socket backlog => listen socket backlog
  | io_accept socket address address_len =>
      accept fuel socket address address_len
  | io_bind socket address address_len => bind socket address address_len
  | io_connect socket address address_len =>
      connect fuel socket address address_len
  | io_unchecked_fsync fd => unchecked_fsync fuel fd
  | io_fsync fd => fsync fuel fd
  | io_unchecked_full_fsync fd => unchecked_full_fsync fuel fd
  | io_full_fsync fd => full_fsync fuel fd
  | io_fallocate fd mode offset len => fallocate fuel fd mode offset len
  | io_fadvise fd offset len advice => fadvise fd offset len advice
  end.

(** *** The vocabulary of the specification *)

(** The body of the wrapper is in this header for the build at hand:
    [run] stands for the wrapper where this holds, and only there. *)
Definition defined_here (c : call) : bool :=
  match c with
  | io_fallocate _ _ _ _ => HAVE_FALLOCATE B
  | _ => true
  end.

(** The wrappers that create a descriptor. *)
Definition creating (c : call) : bool :=
  match c with
  | io_socket _ _ _ | io_accept _ _ _ => true
  | _ => false
  end.

(** The kind of descriptor a wrapper works on: file operations and generic
    ones ask for an open descriptor, socket operations for an open
    socket. *)
Definition precheck_of (c : call) : precheck :=
  match c with
  | io_unlink _ | io_unchecked_fcntl _ _ _ | io_unchecked_fsync _
  | io_unchecked_full_fsync _ | io_socket _ _ _ => unchecked
  | io_lseek fd _ _ | io_fcntl fd _ _ | io_fstat fd _ | io_dup fd
  | io_dup2 fd _ | io_fsync fd | io_full_fsync fd | io_fallocate fd _ _ _
  | io_fadvise fd _ _ _ => opened fd
  | io_shutdown fd _ | io_send fd _ _ _ | io_sendto fd _ _ _ _ _
  | io_recv fd _ _ _ | io_recvfrom fd _ _ _ _ _ | io_getsockopt fd _ _ _ _
  | io_setsockopt fd _ _ _ _ | io_listen fd _ | io_accept fd _ _
  | io_bind fd _ _ | io_connect fd _ _ => opened_socket fd
  end.

(** The kernel primitive behind a wrapper; [None] where the platform has
    none and the wrapper computes its result itself. *)
Definition underlying (c : call) : option syscall :=
  match c with
  | io_unlink path => Some (sys_unlink path)
  | io_lseek fd offset whence => Some (sys_lseek fd offset whence)
  | io_unchecked_fcntl fd cmd args | io_fcntl fd cmd args =>
      Some (sys_fcntl fd cmd args)
  | io_fstat fd buf => Some (sys_fstat fd buf)
  | io_dup fd => Some (sys_dup fd)
  | io_dup2 fd fd2 => Some (sys_dup2 fd fd2)
  | io_shutdown socket how => Some (sys_shutdown socket how)
  | io_send socket buffer length flags =>
      Some (sys_send socket buffer length flags)
  | io_sendto socket buffer length flags dest_addr dest_len =>
      Some (sys_sendto socket buffer length flags dest_addr dest_len)
  | io_recv socket buffer length flags =>
      Some (sys_recv socket buffer length flags)
  | io_socket domain type protocol => Some (sys_socket domain type protocol)
  | io_recvfrom socket buffer length flags address address_len =>
      Some (sys_recvfrom socket buffer length flags address address_len)
  | io_getsockopt socket level option_name option_value option_len =>
      Some (sys_getsockopt socket level option_name option_value option_len)
  | io_setsockopt socket level option_name option_value option_len =>
      Some (sys_setsockopt socket level option_name option_value option_len)
  | io_listen socket backlog => Some (sys_listen socket backlog)
  | io_accept socket address address_len =>
      Some (sys_accept socket address address_len)
  | io_bind socket address address_len =>
      Some (sys_bind socket address address_len)
  | io_connect socket address address_len =>
      Some (sys_connect socket address address_len)
  | io_unchecked_fsync fd | io_fsync fd =>
      match __io_fsync_primitive with
      | Some primitive => Some (primitive fd)
      | None => None
      end
  | io_unchecked_full_fsync fd | io_full_fsync fd =>
      match F_FULLFSYNC B with
      | Some full => Some (sys_fcntl fd full [0])
      | None =>
          match __io_fsync_primitive with
          | Some primitive => Some (primitive fd)
          | None => None
          end
      end
  | io_fallocate fd mode offset len => Some (sys_fallocate fd mode offset len)
  | io_fadvise fd offset len advice =>
      if HAVE_POSIX_FADVISE B
      then Some (sys_posix_fadvise fd offset len advice)
      else None
  end.

(** The two verdicts of the classification: [ignored_errorno] answers
    [true] for an error to ignore. *)
Definition Ignore : bool := true.
Definition Propagate : bool := false.

(** The codes of connectionless routing trouble (lines 110-120). *)
Definition connectionless_routing : list Z :=
  [ENETDOWN E; EPROTO E; ENOPROTOOPT E; EHOSTDOWN E]
  ++ match ENONET E with Some v => [v] | None => [] end
  ++ [EHOSTUNREACH E; EOPNOTSUPP E; ENETUNREACH E; ECONNRESET E].

(** A C compiler refuses a [switch] with two equal [case] labels, so the
    header compiles only where the labels are pairwise distinct. *)
Definition switch_compiles : Prop := NoDup (map fst case_labels).

(** The four lifecycle states of a descriptor, as tracked bits. *)
Definition Unopened : Z := 0.
Definition OpenFile : Z := OPENED.
Definition OpenSocket : Z := Z.lor OPENED SOCKET.
Definition Closed : Z := CLOSED.

(** The tracker refuses: the process stops on a lifecycle violation. *)
Definition rejected {A} (o : outcome kernel A) : Prop :=
  exists msg fd function line s',
    o = Abort (LifecycleViolation msg fd function line) s'.

(** [m] returns what the primitive [p] returned, with the [errno] it left:
    the newest call among the events [m] adds to the history is [p], with
    the result of [m] and the final [errno]. *)
Definition reports (p : syscall) (m : io Z) : Prop :=
  forall s r s',
    m s = Ret r s' ->
    exists evs,
      history s' = evs ++ history s /\
      last_call evs = Some (p, r, errno s').

(** [m] calls no primitive and leaves [errno] alone. *)
Definition quiet {A} (m : io A) : Prop :=
  forall s a s',
    m s = Ret a s' ->
    exists evs,
      history s' = evs ++ history s /\
      last_call evs = None /\ errno s' = errno s.

(** However [m] ends, every descriptor is tracked as before, and [m] has
    invoked the tracker with the set masks [masks] (newest first). *)
Definition leaves_tracker {A} (m : io A) (masks : list Z) : Prop :=
  forall s,
    (forall fd, tracked (final (m s)) fd = tracked s fd) /\
    exists evs,
      history (final (m s)) = evs ++ history s /\ set_masks evs = masks.

Definition never_aborts {A} (m : io A) : Prop :=
  forall s d s', m s <> Abort d s'.

(** What a creation call through the primitive [p] may do to the tracker,
    [bits] being what it registers: the result is the kernel's; on -1
    nothing is registered; on a descriptor the tracker accepts, the
    descriptor holds [bits] and no other descriptor changes; when the
    process stops or loops, nothing is registered. *)
Definition registers_on_success (bits : Z) (p : syscall)
    (s : process kernel) (o : outcome kernel Z) : Prop :=
  match o with
  | Ret r s' =>
      (exists evs e,
         history s' = evs ++ history s /\ last_call evs = Some (p, r, e)) /\
      (r = -1 -> forall fd, tracked s' fd = tracked s fd) /\
      (r <> -1 ->
       tracked s' r = Z.lor (tracked s r) bits /\
       Z.land (tracked s' r) bits = bits /\
       forall fd, fd <> r -> tracked s' fd = tracked s fd)
  | Abort _ s' | Spin s' => forall fd, tracked s' fd = tracked s fd
  end.

(** A creation call whose kernel call gives [r] goes through, [bits] being
    what it registers: on -1 it returns -1 and every descriptor is tracked
    as before; on a descriptor at or above the minimum that the tracker
    holds as unopened it returns the descriptor, which is then tracked as
    [bits], and no other descriptor changes. *)
Definition created (bits : Z) (s : process kernel) (r : Z)
    (o : outcome kernel Z) : Prop :=
  (r = -1 ->
   exists s', o = Ret (-1) s' /\ forall fd, tracked s' fd = tracked s fd) /\
  (r <> -1 -> XAPIAND_MINIMUM_FILE_DESCRIPTOR B <= r ->
   tracked s r = Unopened ->
   exists s',
     o = Ret r s' /\ tracked s' r = bits /\
     forall fd, fd <> r -> tracked s' fd = tracked s fd).

(** What a wrapper makes of the result of its primitive: [fadvise] turns it
    into the truth value of [== 0] (line 295); the others hand it on. *)
Definition handed_on (c : call) (native : Z) : Z :=
  match c with
  | io_fadvise _ _ _ _ => if native =? 0 then 1 else 0
  | _ => native
  end.

(** The wrappers that go through [TEMP_FAILURE_RETRY]. *)
Definition retried (c : call) : bool :=
  match c with
  | io_unchecked_fcntl _ _ _ | io_fcntl _ _ _ | io_send _ _ _ _
  | io_sendto _ _ _ _ _ _ | io_recv _ _ _ _ | io_recvfrom _ _ _ _ _ _
  | io_accept _ _ _ | io_connect _ _ _ | io_unchecked_fsync _ | io_fsync _
  | io_unchecked_full_fsync _ | io_full_fsync _ | io_fallocate _ _ _ _ => true
  | _ => false
  end.

Definition never_spins {A} (m : io A) : Prop :=
  forall s s', m s <> Spin s'.

(** [m] is still looping only for want of fuel: none was given, or the
    last result was one more interruption. *)
Definition spins_interrupted {A} (fuel : nat) (m : io A) : Prop :=
  forall s s', m s = Spin s' -> fuel = O \/ errno s' = EINTR E.

(** The kernel answers [r] to the call [c] made in state [s]. *)
Definition kernel_gives (c : syscall) (s : process kernel) (r : Z) : Prop :=
  fst (fst (os c (errno s) (os_state s))) = r.

(** A result is an interruption when it is the failure sentinel and [errno]
    holds [EINTR]. *)
Definition interrupted (r : Z) (s : process kernel) : Prop :=
  r = -1 /\ errno s = EINTR E.

(** What [m] returns is never an interruption. *)
Definition absorbs (m : io Z) : Prop :=
  forall s r s', m s = Ret r s' -> ~ interrupted r s'.

(** [exp], run again and again from [s], is interrupted [n] times and then
    gives [r] in state [s'], which is not an interruption. *)
Inductive settles (exp : io Z)
  : nat -> process kernel -> Z -> process kernel -> Prop :=
| settles_now s r s' :
    exp s = Ret r s' -> ~ interrupted r s' -> settles exp 0 s r s'
| settles_later n s s1 r s' :
    exp s = Ret (-1) s1 -> errno s1 = EINTR E ->
    settles exp n s1 r s' -> settles exp (S n) s r s'.

(** Every code the classification can ignore (lines 99-120). *)
Definition ignorable : list Z :=
  [EINTR E; EAGAIN E; EWOULDBLOCK E; EPIPE E; EINPROGRESS E]
  ++ connectionless_routing.

(** Between [s] and [s'] the kernel was not called: [errno] and the
    kernel's state are the same and the history gained no call. *)
Definition kernel_untouched (s s' : process kernel) : Prop :=
  errno s' = errno s /\
  os_state s' = os_state s /\
  exists evs, history s' = evs ++ history s /\ calls evs = [].

(** [m] only consults the tracker about [fd]: it never calls the kernel,
    never loops, and stops the process only in a build that tracks
    descriptors, with a diagnostic about [fd]. *)
Definition tracker_only (fd : Z) (m : io unit) : Prop :=
  forall s,
    match m s with
    | Ret _ s1 => kernel_untouched s s1
    | Abort d s1 =>
        XAPIAND_CHECK_IO_FDES B = true /\ about d = fd /\
        kernel_untouched s s1
    | Spin _ => False
    end.

(** When [m] returns, the kernel calls it made are calls of [p] alone: the
    newest gave the result of [m] and left the final [errno], the ones
    before it were interruptions; without [retries] there are none of
    those. *)
Definition calls_its_primitive (p : syscall) (retries : bool) (m : io Z)
  : Prop :=
  forall s r s',
    m s = Ret r s' ->
    exists evs n,
      history s' = evs ++ history s /\
      calls evs = (p, r, errno s') :: repeat (p, -1, EINTR E) n /\
      (retries = false -> n = O).

(** However [m] ends, the registry is the same map and the tracker was not
    invoked. *)
Definition untracked {A} (m : io A) : Prop :=
  forall s,
    fdes (final (m s)) = fdes s /\
    exists evs,
      history (final (m s)) = evs ++ history s /\ set_masks evs = [].

(** ** Properties *)

(** *** The monad *)

Lemma seq_Ret {A C} (m : io A) (k : A -> io C) s c s' :
  seq m k s = Ret c s' ->
  exists a s1, m s = Ret a s1 /\ k a s1 = Ret c s'.
Proof.
  unfold seq. destruct (m s) as [a s1| |]; [eauto | discriminate..].
Qed.

(** *** The retry loop *)

Lemma TEMP_FAILURE_RETRY_again fuel (exp : io Z) s s1 :
  exp s = Ret (-1) s1 -> errno s1 = EINTR E ->
  TEMP_FAILURE_RETRY (S fuel) exp s = TEMP_FAILURE_RETRY fuel exp s1.
Proof.
  intros Hexp Herr. cbn [TEMP_FAILURE_RETRY]. rewrite Hexp, Herr.
  rewrite !Z.eqb_refl. reflexivity.
Qed.

Lemma TEMP_FAILURE_RETRY_leave fuel (exp : io Z) s r s1 :
  exp s = Ret r s1 -> ~ interrupted r s1 ->
  TEMP_FAILURE_RETRY (S fuel) exp s = Ret r s1.
Proof.
  intros Hexp Hnot. cbn [TEMP_FAILURE_RETRY]. rewrite Hexp.
  destruct (Z.eqb_spec r (-1)) as [Hr|]; [|reflexivity].
  destruct (Z.eqb_spec (errno s1) (EINTR E)) as [He|]; [|reflexivity].
  exfalso. apply Hnot. now split.
Qed.

(** Enough fuel for the interruptions, and the loop leaves with the first
    result that is not one. *)
Lemma settles_TEMP_FAILURE_RETRY (exp : io Z) n s r s' :
  settles exp n s r s' ->
  forall fuel, (n < fuel)%nat -> TEMP_FAILURE_RETRY fuel exp s = Ret r s'.
Proof.
  induction 1 as [s r s' Hexp Hnot | n s s1 r s' Hexp Herr _ IH];
    intros [|fuel] Hfuel; try lia.
  - now apply TEMP_FAILURE_RETRY_leave.
  - rewrite (TEMP_FAILURE_RETRY_again _ _ _ _ Hexp Herr).
    apply IH. lia.
Qed.

(** What the loop returns is such a first result. *)
Lemma TEMP_FAILURE_RETRY_settles (exp : io Z) fuel :
  forall s r s',
    TEMP_FAILURE_RETRY fuel exp s = Ret r s' ->
    exists n, (n < fuel)%nat /\ settles exp n s r s'.
Proof.
  induction fuel as [|fuel IH]; intros s r s' Hrun; [discriminate|].
  cbn [TEMP_FAILURE_RETRY] in Hrun.
  destruct (exp s) as [r1 s1| |] eqn:Hexp; try discriminate.
  destruct (Z.eqb_spec r1 (-1)) as [Hr|Hr]; cbn [andb] in Hrun.
  - destruct (Z.eqb_spec (errno s1) (EINTR E)) as [He|He].
    + destruct (IH _ _ _ Hrun) as (n & Hn & Hs). subst r1.
      exists (S n). split; [lia|]. now apply settles_later with s1.
    + injection Hrun as -> ->. exists O. split; [lia|].
      apply settles_now; [assumption|]. intros [_ ?]. contradiction.
  - injection Hrun as -> ->. exists O. split; [lia|].
    apply settles_now; [assumption|]. intros [? _]. contradiction.
Qed.

Lemma settles_not_interrupted (exp : io Z) n s r s' :
  settles exp n s r s' -> ~ interrupted r s'.
Proof. induction 1; assumption. Qed.

(** C1, as amended.  Given a call that returned -1 with [errno] equal to
    [EINTR], the retry wrapper invokes the call again whatever the
    Interrupt-Suppression Flag holds (the loop never reads it), and what it
    returns is the first result that is a success or a different failure,
    never the interruption: it returns that result as soon as the fuel
    covers the interruptions before it, and returns nothing else. *)
Theorem TEMP_FAILURE_RETRY_retries_whatever_the_flag
    (exp : io Z) s s1 (flag : bool) :
  exp s = Ret (-1) s1 -> errno s1 = EINTR E -> ignore_intr s1 = flag ->
  forall fuel,
    TEMP_FAILURE_RETRY (S fuel) exp s = TEMP_FAILURE_RETRY fuel exp s1 /\
    (forall n r s',
       settles exp n s1 r s' -> (n < fuel)%nat ->
       TEMP_FAILURE_RETRY (S fuel) exp s = Ret r s') /\
    (forall r s',
       TEMP_FAILURE_RETRY (S fuel) exp s = Ret r s' ->
       ~ interrupted r s' /\
       exists n, (n < fuel)%nat /\ settles exp n s1 r s').
Proof.
  intros Hexp Herr _ fuel.
  pose proof (TEMP_FAILURE_RETRY_again fuel exp s s1 Hexp Herr) as Hagain.
  split; [exact Hagain|]. rewrite Hagain. split.
  - intros n r s' Hs Hn. exact (settles_TEMP_FAILURE_RETRY _ _ _ _ _ Hs _ Hn).
  - intros r s' Hrun.
    destruct (TEMP_FAILURE_RETRY_settles _ _ _ _ _ Hrun) as (n & Hn & Hs).
    split; [exact (settles_not_interrupted _ _ _ _ _ Hs) | eauto].
Qed.

(** C8.  With the Interrupt-Suppression Flag enabled, when a wrapped
    primitive fails [n] times with -1 and [EINTR] and then gives a result
    that is not an interruption, the retry wrapper (given fuel for [n + 1]
    rounds) returns that result, and what the caller sees is not an
    interruption.  So do [send] and [recv], once the tracker has let the
    socket through. *)
Theorem TEMP_FAILURE_RETRY_returns_eventual_result
    (c : syscall) n s r s' fuel :
  ignore_intr s = true ->
  settles (invoke c) n s r s' ->
  (n < fuel)%nat ->
  (TEMP_FAILURE_RETRY fuel (invoke c) s = Ret r s' /\ ~ interrupted r s') /\
  (forall socket buffer length flags s0,
     c = sys_send socket buffer length flags ->
     CHECK_OPENED_SOCKET "during send()" socket "send" 190 s0 = Ret tt s ->
     send fuel socket buffer length flags s0 = Ret r s') /\
  (forall socket buffer length flags s0,
     c = sys_recv socket buffer length flags ->
     CHECK_OPENED_SOCKET "during recv()" socket "recv" 202 s0 = Ret tt s ->
     recv fuel socket buffer length flags s0 = Ret r s').
Proof.
  intros _ Hs Hfuel.
  pose proof (settles_TEMP_FAILURE_RETRY _ _ _ _ _ Hs fuel Hfuel) as Hrun.
  split; [split|split].
  - exact Hrun.
  - exact (settles_not_interrupted _ _ _ _ _ Hs).
  - intros socket buffer length flags s0 -> Hcheck.
    unfold send, seq. now rewrite Hcheck.
  - intros socket buffer length flags s0 -> Hcheck.
    unfold recv, seq. now rewrite Hcheck.
Qed.

(** *** The classification *)

Lemma switch_hit e a cases :
  NoDup (map fst cases) -> In (e, a) cases -> switch e cases = Some a.
Proof.
  induction cases as [|[label b] rest IH]; cbn [switch map fst In];
    intros Hnodup Hin; [contradiction|].
  apply NoDup_cons in Hnodup as [Hfresh Hrest].
  destruct Hin as [Heq|Hin].
  - injection Heq as -> ->. now rewrite Z.eqb_refl.
  - destruct (Z.eqb_spec e label) as [->|_]; [|now apply IH].
    exfalso. apply Hfresh. apply list_elem_of_In, in_map_iff.
    now exists (label, a).
Qed.

Lemma switch_miss e cases :
  ~ In e (map fst cases) -> switch e cases = None.
Proof.
  induction cases as [|[label b] rest IH]; cbn [switch map fst In];
    intros Hout; [reflexivity|].
  destruct (Z.eqb_spec e label) as [->|_]; [tauto|]. apply IH. tauto.
Qed.

Lemma switch_found e a cases :
  switch e cases = Some a -> In (e, a) cases.
Proof.
  induction cases as [|[label b] rest IH]; cbn [switch In]; [discriminate|].
  destruct (Z.eqb_spec e label) as [->|_]; [|now right; apply IH].
  intros [= ->]. now left.
Qed.

Lemma EINTR_is_the_only_ret_intr e :
  In (e, ret_intr) case_labels -> e = EINTR E.
Proof.
  unfold case_labels. rewrite !in_app_iff. cbn [In].
  destruct (EAGAIN E =? EWOULDBLOCK E), (ENONET E); cbn [In];
    intuition congruence.
Qed.

Lemma again_label e :
  e = EAGAIN E \/ e = EWOULDBLOCK E -> In (e, ret_again) case_labels.
Proof.
  unfold case_labels. rewrite !in_app_iff. cbn [In].
  destruct (Z.eqb_spec (EAGAIN E) (EWOULDBLOCK E)) as [Heq|_]; cbn [In].
  - intros [->| ->]; [tauto|]. rewrite <- Heq. tauto.
  - intros [->| ->]; tauto.
Qed.

Lemma tcp_label e :
  e = EPIPE E \/ e = EINPROGRESS E -> In (e, ret_tcp) case_labels.
Proof.
  unfold case_labels. rewrite !in_app_iff. cbn [In].
  intros [->| ->]; tauto.
Qed.

Lemma udp_label e :
  In e connectionless_routing -> In (e, ret_udp) case_labels.
Proof.
  unfold connectionless_routing, case_labels. rewrite !in_app_iff.
  destruct (ENONET E); cbn [In]; intuition (subst; tauto).
Qed.

Lemma ignored_errorno_arm s e a again tcp udp :
  switch_compiles -> In (e, a) case_labels ->
  ignored_errorno s e again tcp udp =
  match a with
  | ret_intr => ignore_intr s
  | ret_again => again
  | ret_tcp => tcp
  | ret_udp => udp
  end.
Proof.
  intros Hdistinct Hin. unfold ignored_errorno.
  now rewrite (switch_hit _ _ _ Hdistinct Hin).
Qed.

(** C2.  Whatever the error code and the three flags: [EAGAIN] and
    [EWOULDBLOCK] are ignored iff [again] is true, [EPIPE] and
    [EINPROGRESS] iff [tcp] is true, and the codes of connectionless
    routing ([ENETDOWN], [EPROTO], [ENOPROTOOPT], [EHOSTDOWN], [ENONET]
    where defined, [EHOSTUNREACH], [EOPNOTSUPP], [ENETUNREACH],
    [ECONNRESET]) iff [udp] is true. *)
Theorem ignored_errorno_by_channel s (e : Z) (again tcp udp : bool) :
  switch_compiles ->
  (e = EAGAIN E \/ e = EWOULDBLOCK E ->
   (ignored_errorno s e again tcp udp = Ignore <-> again = true)) /\
  (e = EPIPE E \/ e = EINPROGRESS E ->
   (ignored_errorno s e again tcp udp = Ignore <-> tcp = true)) /\
  (In e connectionless_routing ->
   (ignored_errorno s e again tcp udp = Ignore <-> udp = true)).
Proof.
  intros Hdistinct. unfold Ignore. split; [|split]; intros He.
  - rewrite (ignored_errorno_arm s e ret_again) by auto using again_label.
    reflexivity.
  - rewrite (ignored_errorno_arm s e ret_tcp) by auto using tcp_label.
    reflexivity.
  - rewrite (ignored_errorno_arm s e ret_udp) by auto using udp_label.
    reflexivity.
Qed.

(** C3.  The classification is total and deterministic given the flag: it
    answers exactly one of Ignore and Propagate, and the same in any two
    states that agree on the flag; [EINTR] is ignored iff the flag is set in
    the state the call runs in; a code that is no [case] label is
    propagated; and with the three boolean flags false every code other
    than [EINTR] is propagated. *)
Theorem ignored_errorno_total s (e : Z) (again tcp udp : bool) :
  (ignored_errorno s e again tcp udp = Ignore /\
   ignored_errorno s e again tcp udp <> Propagate \/
   ignored_errorno s e again tcp udp = Propagate /\
   ignored_errorno s e again tcp udp <> Ignore) /\
  (forall s2, ignore_intr s2 = ignore_intr s ->
     ignored_errorno s2 e again tcp udp = ignored_errorno s e again tcp udp) /\
  (ignored_errorno s (EINTR E) again tcp udp = Ignore <->
   ignore_intr s = true) /\
  (~ In e (map fst case_labels) ->
   ignored_errorno s e again tcp udp = Propagate) /\
  (e <> EINTR E -> ignored_errorno s e false false false = Propagate).
Proof.
  unfold Ignore, Propagate. repeat split.
  - destruct (ignored_errorno s e again tcp udp); [left|right]; split;
      congruence.
  - intros s2 Hflag. unfold ignored_errorno. now rewrite Hflag.
  - unfold ignored_errorno, case_labels. cbn [app switch].
    now rewrite Z.eqb_refl.
  - unfold ignored_errorno, case_labels. cbn [app switch].
    now rewrite Z.eqb_refl.
  - intros Hout. unfold ignored_errorno. now rewrite switch_miss.
  - intros Hother. unfold ignored_errorno.
    destruct (switch e case_labels) as [[]|] eqn:Hsw; try reflexivity.
    apply switch_found, EINTR_is_the_only_ret_intr in Hsw. contradiction.
Qed.

(** *** The tracker *)

Lemma tracked_note ev s fd : tracked (note ev s) fd = tracked s fd.
Proof. reflexivity. Qed.

Lemma tracked_register fd bits s fd' :
  tracked (register fd bits s) fd' =
  if decide (fd = fd') then bits else tracked s fd'.
Proof.
  unfold tracked, register. cbn [fdes]. rewrite lookup_insert.
  now case_decide.
Qed.

(** The four ways through [check]. *)
Lemma check_cases msg fd check_set check_unset set function line s :
  let s1 := note (Checked fd check_set check_unset set) s in
  let currently := tracked s fd in
  fd = -1 /\
    check msg fd check_set check_unset set function line s = Ret tt s1
  \/
  (fd <> -1 /\ fd < XAPIAND_MINIMUM_FILE_DESCRIPTOR B) /\
    check msg fd check_set check_unset set function line s
    = Abort (ConfigurationError fd) s1
  \/
  (fd <> -1 /\ XAPIAND_MINIMUM_FILE_DESCRIPTOR B <= fd /\
   (Z.land currently check_set <> check_set \/
    Z.land currently check_unset <> 0)) /\
    check msg fd check_set check_unset set function line s
    = Abort (LifecycleViolation msg fd function line) s1
  \/
  (fd <> -1 /\ XAPIAND_MINIMUM_FILE_DESCRIPTOR B <= fd /\
   Z.land currently check_set = check_set /\
   Z.land currently check_unset = 0) /\
    check msg fd check_set check_unset set function line s
    = Ret tt (register fd
                (if Z.land set CLOSED =? 0
                 then Z.lor currently set
                 else Z.lor (Z.ldiff currently (Z.lor OPENED SOCKET)) set)
                s1).
Proof.
  intros s1 currently. unfold check. fold s1.
  change (tracked s1 fd) with currently.
  destruct (Z.eqb_spec fd (-1)) as [Hfd|Hfd]; [now left|right].
  destruct (Z.ltb_spec fd (XAPIAND_MINIMUM_FILE_DESCRIPTOR B)) as [Hlow|Hmin];
    [now left|right].
  destruct (Z.eqb_spec (Z.land currently check_set) check_set) as [Hset|Hset];
    cbn [negb orb]; [|left; tauto].
  destruct (Z.eqb_spec (Z.land currently check_unset) 0) as [Hunset|Hunset];
    cbn [negb]; [right|left]; tauto.
Qed.

Lemma check_leaves_tracker msg fd check_set check_unset function line :
  leaves_tracker (check msg fd check_set check_unset 0 function line) [0].
Proof.
  intros s.
  destruct (check_cases msg fd check_set check_unset 0 function line s)
    as [[_ ->]|[[_ ->]|[[_ ->]|[_ ->]]]]; cbn [final];
    (split; [intros fd'|now exists [Checked fd check_set check_unset 0]]);
    try reflexivity.
  rewrite tracked_register. case_decide as Hfd; [|reflexivity].
  subst fd'. cbn [Z.land Z.eqb]. now rewrite Z.lor_0_r.
Qed.

Lemma when_tracking_leaves_tracker (m : io unit) :
  leaves_tracker m [0] ->
  leaves_tracker (when_tracking m)
    (if XAPIAND_CHECK_IO_FDES B then [0] else []).
Proof.
  unfold when_tracking. destruct (XAPIAND_CHECK_IO_FDES B); [trivial|].
  intros _ s. cbn [ret final]. split; [reflexivity|now exists []].
Qed.

Lemma CHECK_OPENED_leaves_tracker msg fd function line :
  leaves_tracker (CHECK_OPENED msg fd function line)
    (if XAPIAND_CHECK_IO_FDES B then [0] else []).
Proof. apply when_tracking_leaves_tracker, check_leaves_tracker. Qed.

Lemma CHECK_OPENED_SOCKET_leaves_tracker msg fd function line :
  leaves_tracker (CHECK_OPENED_SOCKET msg fd function line)
    (if XAPIAND_CHECK_IO_FDES B then [0] else []).
Proof. apply when_tracking_leaves_tracker, check_leaves_tracker. Qed.

Lemma ret_leaves_tracker {A} (a : A) : leaves_tracker (ret a) [].
Proof. intros s. split; [reflexivity|now exists []]. Qed.

Lemma invoke_Ret c s :
  exists r s',
    invoke c s = Ret r s' /\
    history s' = Called c r (errno s') :: history s /\
    fdes s' = fdes s /\ ignore_intr s' = ignore_intr s.
Proof.
  unfold invoke. destruct (os c (errno s) (os_state s)) as [[r e] k].
  now eexists _, _.
Qed.

Lemma invoke_leaves_tracker c : leaves_tracker (invoke c) [].
Proof.
  intros s. destruct (invoke_Ret c s) as (r & s' & -> & Hh & Hf & _).
  cbn [final]. split.
  - intros fd. unfold tracked. now rewrite Hf.
  - exists [Called c r (errno s')]. now rewrite Hh.
Qed.

Lemma seq_leaves_tracker {A C} (m : io A) (k : A -> io C) masks :
  leaves_tracker m masks ->
  (forall a, leaves_tracker (k a) []) ->
  leaves_tracker (seq m k) masks.
Proof.
  intros Hm Hk s. unfold seq. specialize (Hm s).
  destruct (m s) as [a s1|d s1|s1]; cbn [final] in *; try exact Hm.
  destruct Hm as (Htr & evs & Hh & Hmasks).
  destruct (Hk a s1) as (Htr' & evs' & Hh' & Hmasks').
  split.
  - intros fd. now rewrite Htr', Htr.
  - exists (evs' ++ evs). rewrite Hh', Hh, app_assoc. split; [reflexivity|].
    clear - Hmasks Hmasks'. revert Hmasks'.
    induction evs' as [|[]]; cbn [app set_masks]; intros; try discriminate;
      auto.
Qed.

Lemma TEMP_FAILURE_RETRY_leaves_tracker fuel (exp : io Z) :
  leaves_tracker exp [] -> leaves_tracker (TEMP_FAILURE_RETRY fuel exp) [].
Proof.
  intros Hexp. induction fuel as [|fuel IH]; intros s;
    cbn [TEMP_FAILURE_RETRY final].
  - split; [reflexivity|now exists []].
  - pose proof (Hexp s) as Hs.
    destruct (exp s) as [r s1|d s1|s1]; cbn [final] in *; try exact Hs.
    destruct ((r =? -1) && (errno s1 =? EINTR E)); [|exact Hs].
    destruct Hs as (Htr & evs & Hh & Hmasks).
    destruct (IH s1) as (Htr' & evs' & Hh' & Hmasks').
    split.
    + intros fd. now rewrite Htr', Htr.
    + exists (evs' ++ evs). rewrite Hh', Hh, app_assoc. split; [reflexivity|].
      clear - Hmasks Hmasks'. revert Hmasks'.
      induction evs' as [|[]]; cbn [app set_masks]; intros;
        try discriminate; auto.
Qed.

Lemma __io_fsync_leaves_tracker fd : leaves_tracker (__io_fsync fd) [].
Proof.
  unfold __io_fsync. destruct __io_fsync_primitive.
  - apply invoke_leaves_tracker.
  - apply ret_leaves_tracker.
Qed.

Ltac kernel_only :=
  repeat first
    [ apply TEMP_FAILURE_RETRY_leaves_tracker
    | apply invoke_leaves_tracker
    | apply __io_fsync_leaves_tracker
    | apply ret_leaves_tracker
    | apply seq_leaves_tracker; [|intros ?] ].

Ltac prechecked :=
  apply seq_leaves_tracker;
  [ first [ apply CHECK_OPENED_leaves_tracker
          | apply CHECK_OPENED_SOCKET_leaves_tracker ]
  | intros ?; kernel_only ].

Lemma run_leaves_tracker fuel c :
  creating c = false ->
  leaves_tracker (run fuel c)
    match precheck_of c with
    | unchecked => []
    | _ => if XAPIAND_CHECK_IO_FDES B then [0] else []
    end.
Proof.
  destruct c; try discriminate; intros _; cbn [run precheck_of];
    unfold unlink, lseek, unchecked_fcntl, fcntl, fstat, dup, dup2, shutdown,
      send, sendto, recv, recvfrom, getsockopt, setsockopt, listen, bind,
      connect, unchecked_fsync, fsync, unchecked_full_fsync, full_fsync,
      fallocate, fadvise;
    try solve [kernel_only | prechecked].
  - destruct (F_FULLFSYNC B); kernel_only.
  - apply seq_leaves_tracker; [apply CHECK_OPENED_leaves_tracker|intros ?].
    unfold unchecked_full_fsync. destruct (F_FULLFSYNC B); kernel_only.
  - destruct (HAVE_POSIX_FADVISE B); prechecked.
Qed.

(** C10.  A wrapper of the header that neither creates nor closes a
    descriptor invokes the tracker with no bits to set (once, where it has
    a pre-check and the build tracks descriptors), so that every
    descriptor is tracked after the call as it was before, whether the
    kernel's call succeeds, fails, or the tracker stops the process. *)
Theorem prechecks_leave_the_tracker_alone (fuel : nat) (c : call) s :
  creating c = false -> defined_here c = true ->
  (forall fd, tracked (final (run fuel c s)) fd = tracked s fd) /\
  exists evs,
    history (final (run fuel c s)) = evs ++ history s /\
    Forall (fun set => set = 0) (set_masks evs) /\
    (XAPIAND_CHECK_IO_FDES B = true -> precheck_of c <> unchecked ->
     set_masks evs = [0]).
Proof.
  intros Hc _. destruct (run_leaves_tracker fuel c Hc s)
    as (Htracked & evs & Hhistory & Hmasks).
  split; [exact Htracked|]. exists evs. split; [exact Hhistory|].
  rewrite Hmasks. split.
  - destruct (precheck_of c), (XAPIAND_CHECK_IO_FDES B);
      repeat constructor.
  - intros ->. now destruct (precheck_of c).
Qed.

(** C9.  Whatever the masks, that is whatever kind of channel is being
    registered or used, the tracker stops the process with a configuration
    error on a descriptor below [XAPIAND_MINIMUM_FILE_DESCRIPTOR] and
    registers nothing; the minimum is the build's override when there is
    one and [STDERR_FILENO + 1] otherwise, so that by default descriptors
    0, 1 and 2 are refused, as a file and as a socket. *)
Theorem minimum_descriptor_guard
    msg (fd check_set check_unset set : Z) function line s :
  fd <> -1 -> fd < XAPIAND_MINIMUM_FILE_DESCRIPTOR B ->
  (exists s',
     check msg fd check_set check_unset set function line s
     = Abort (ConfigurationError fd) s' /\
     forall fd', tracked s' fd' = tracked s fd') /\
  (XAPIAND_CHECK_IO_FDES B = true ->
   exists s1 s2,
     CHECK_OPEN fd function line s = Abort (ConfigurationError fd) s1 /\
     CHECK_OPEN_SOCKET fd function line s
     = Abort (ConfigurationError fd) s2) /\
  (forall n, D_XAPIAND_MINIMUM_FILE_DESCRIPTOR B = Some n ->
     XAPIAND_MINIMUM_FILE_DESCRIPTOR B = n) /\
  (D_XAPIAND_MINIMUM_FILE_DESCRIPTOR B = None ->
   XAPIAND_MINIMUM_FILE_DESCRIPTOR B = STDERR_FILENO + 1 /\
   forall std, 0 <= std <= STDERR_FILENO ->
     exists s',
       check msg std check_set check_unset set function line s
       = Abort (ConfigurationError std) s').
Proof.
  intros Hfd Hlow.
  assert (Hguard : forall msg fd cs cu set function line,
    fd <> -1 -> fd < XAPIAND_MINIMUM_FILE_DESCRIPTOR B ->
    check msg fd cs cu set function line s
    = Abort (ConfigurationError fd) (note (Checked fd cs cu set) s)).
  { clear. intros msg fd cs cu set function line Hfd Hlow.
    destruct (check_cases msg fd cs cu set function line s)
      as [[? _]|[[_ ->]|[[(_ & ? & _) _]|[(_ & ? & _) _]]]];
      [contradiction|reflexivity|lia..]. }
  split; [|split; [|split]].
  - eexists. split; [now apply Hguard|]. intros fd'. apply tracked_note.
  - intros Hon. unfold CHECK_OPEN, CHECK_OPEN_SOCKET, when_tracking.
    rewrite Hon. eexists _, _. split; now apply Hguard.
  - unfold XAPIAND_MINIMUM_FILE_DESCRIPTOR. now intros n ->.
  - unfold XAPIAND_MINIMUM_FILE_DESCRIPTOR in *. intros Hdefault.
    rewrite Hdefault in *. split; [reflexivity|]. intros std Hstd.
    eexists. apply Hguard; unfold XAPIAND_MINIMUM_FILE_DESCRIPTOR;
      rewrite ?Hdefault; unfold STDERR_FILENO in *; lia.
Qed.

Lemma check_rejects msg fd check_set check_unset set function line s :
  fd <> -1 -> XAPIAND_MINIMUM_FILE_DESCRIPTOR B <= fd ->
  (Z.land (tracked s fd) check_set =? check_set)
  && (Z.land (tracked s fd) check_unset =? 0) = false ->
  check msg fd check_set check_unset set function line s
  = Abort (LifecycleViolation msg fd function line)
      (note (Checked fd check_set check_unset set) s).
Proof.
  intros Hfd Hmin Hbits.
  destruct (check_cases msg fd check_set check_unset set function line s)
    as [[? _]|[[[_ ?] _]|[[_ ->]|[(_ & _ & Hset & Hunset) _]]]];
    [contradiction|lia|reflexivity|].
  rewrite Hset, Hunset, !Z.eqb_refl in Hbits. discriminate.
Qed.

Lemma check_accepts msg fd check_set check_unset set function line s :
  fd <> -1 -> XAPIAND_MINIMUM_FILE_DESCRIPTOR B <= fd ->
  (Z.land (tracked s fd) check_set =? check_set)
  && (Z.land (tracked s fd) check_unset =? 0) = true ->
  check msg fd check_set check_unset set function line s
  = Ret tt
      (register fd
         (if Z.land set CLOSED =? 0
          then Z.lor (tracked s fd) set
          else Z.lor (Z.ldiff (tracked s fd) (Z.lor OPENED SOCKET)) set)
         (note (Checked fd check_set check_unset set) s)).
Proof.
  intros Hfd Hmin Hbits. apply andb_true_iff in Hbits as [Hset Hunset].
  apply Z.eqb_eq in Hset, Hunset.
  destruct (check_cases msg fd check_set check_unset set function line s)
    as [[? _]|[[[_ ?] _]|[[(_ & _ & [?|?]) _]|[_ ->]]]];
    [contradiction|lia|contradiction..|reflexivity].
Qed.

Lemma Z_land_lor_same a bits : Z.land (Z.lor a bits) bits = bits.
Proof.
  apply Z.bits_inj'. intros n _. rewrite Z.land_spec, Z.lor_spec.
  now destruct (Z.testbit a n), (Z.testbit bits n).
Qed.

(** What a registration through [check] does to the registry. *)
Lemma check_registers msg fd check_set check_unset bits function line s :
  Z.land bits CLOSED = 0 ->
  let o := check msg fd check_set check_unset bits function line s in
  history (final o) = Checked fd check_set check_unset bits :: history s /\
  errno (final o) = errno s /\
  match o with
  | Ret _ s' =>
      (fd = -1 -> forall fd', tracked s' fd' = tracked s fd') /\
      (fd <> -1 ->
       tracked s' fd = Z.lor (tracked s fd) bits /\
       Z.land (tracked s' fd) bits = bits /\
       forall fd', fd' <> fd -> tracked s' fd' = tracked s fd')
  | Abort _ s' | Spin s' => forall fd', tracked s' fd' = tracked s fd'
  end.
Proof.
  intros Hbits o. subst o.
  destruct (check_cases msg fd check_set check_unset bits function line s)
    as [[Hfd ->]|[[_ ->]|[[_ ->]|[[Hfd _] ->]]]]; cbn [final];
    (split; [reflexivity|split; [reflexivity|]]); try reflexivity.
  - split; [reflexivity|contradiction].
  - rewrite Hbits. cbn [Z.eqb].
    split; [contradiction|intros _]. rewrite !tracked_register.
    case_decide; [|contradiction]. rewrite ?tracked_note.
    split; [reflexivity|]. split; [apply Z_land_lor_same|].
    intros fd' Hother. rewrite tracked_register.
    case_decide; [congruence|reflexivity].
Qed.

(** *** Results and the history *)

Lemma last_call_app_Some evs evs' x :
  last_call evs = Some x -> last_call (evs ++ evs') = Some x.
Proof.
  induction evs as [|[] evs IH]; cbn [last_call app]; [discriminate|auto..].
Qed.

Lemma last_call_app_None evs evs' :
  last_call evs = None -> last_call (evs ++ evs') = last_call evs'.
Proof.
  induction evs as [|[] evs IH]; cbn [last_call app]; [auto|discriminate|auto].
Qed.

Lemma invoke_reports p : reports p (invoke p).
Proof.
  intros s r s' Hrun.
  destruct (invoke_Ret p s) as (r1 & s1 & Heq & Hh & _).
  rewrite Heq in Hrun. injection Hrun as -> ->.
  now exists [Called p r (errno s')].
Qed.

Lemma TEMP_FAILURE_RETRY_reports fuel p (exp : io Z) :
  reports p exp -> reports p (TEMP_FAILURE_RETRY fuel exp).
Proof.
  intros Hexp. induction fuel as [|fuel IH]; intros s r s' Hrun;
    [discriminate|].
  cbn [TEMP_FAILURE_RETRY] in Hrun.
  destruct (exp s) as [r1 s1| |] eqn:Hstep; try discriminate.
  destruct ((r1 =? -1) && (errno s1 =? EINTR E)).
  - destruct (Hexp _ _ _ Hstep) as (evs1 & Hh1 & _).
    destruct (IH _ _ _ Hrun) as (evs2 & Hh2 & Hlast).
    exists (evs2 ++ evs1). rewrite Hh2, Hh1, app_assoc.
    split; [reflexivity|now apply last_call_app_Some].
  - injection Hrun as -> ->. eauto.
Qed.

Lemma check_quiet msg fd check_set check_unset set function line :
  quiet (check msg fd check_set check_unset set function line).
Proof.
  intros s a s' Hrun.
  exists [Checked fd check_set check_unset set].
  destruct (check_cases msg fd check_set check_unset set function line s)
    as [[_ Heq]|[[_ Heq]|[[_ Heq]|[_ Heq]]]]; rewrite Heq in Hrun;
    try discriminate; injection Hrun as _ <-; now repeat split.
Qed.

Lemma when_tracking_quiet (m : io unit) : quiet m -> quiet (when_tracking m).
Proof.
  unfold when_tracking. destruct (XAPIAND_CHECK_IO_FDES B); [trivial|].
  intros _ s a s' [= _ <-]. now exists [].
Qed.

Lemma CHECK_OPENED_quiet msg fd function line :
  quiet (CHECK_OPENED msg fd function line).
Proof. apply when_tracking_quiet, check_quiet. Qed.

Lemma CHECK_OPENED_SOCKET_quiet msg fd function line :
  quiet (CHECK_OPENED_SOCKET msg fd function line).
Proof. apply when_tracking_quiet, check_quiet. Qed.

Lemma CHECK_OPEN_SOCKET_quiet fd function line :
  quiet (CHECK_OPEN_SOCKET fd function line).
Proof. apply when_tracking_quiet, check_quiet. Qed.

Lemma seq_quiet_reports {A} p (m : io A) (k : A -> io Z) :
  quiet m -> (forall a, reports p (k a)) -> reports p (seq m k).
Proof.
  intros Hm Hk s r s' Hrun.
  apply seq_Ret in Hrun as (a & s1 & Hfirst & Hrest).
  destruct (Hm _ _ _ Hfirst) as (evs1 & Hh1 & _).
  destruct (Hk a _ _ _ Hrest) as (evs2 & Hh2 & Hlast).
  exists (evs2 ++ evs1). rewrite Hh2, Hh1, app_assoc.
  split; [reflexivity|now apply last_call_app_Some].
Qed.

Lemma seq_reports_quiet p (m : io Z) (k : Z -> io unit) :
  reports p m -> (forall a, quiet (k a)) ->
  reports p (seq m (fun a => seq (k a) (fun _ => ret a))).
Proof.
  intros Hm Hk s r s' Hrun.
  apply seq_Ret in Hrun as (a & s1 & Hfirst & Hrest).
  apply seq_Ret in Hrest as ([] & s2 & Hcheck & [= -> ->]).
  destruct (Hm _ _ _ Hfirst) as (evs1 & Hh1 & Hlast).
  destruct (Hk _ _ _ _ Hcheck) as (evs2 & Hh2 & Hnone & Herrno).
  exists (evs2 ++ evs1). rewrite Hh2, Hh1, app_assoc.
  split; [reflexivity|].
  now rewrite (last_call_app_None _ _ Hnone), Herrno.
Qed.

Lemma seq_quiet_silent {A} (m : io A) (k : A -> io Z) s r s' :
  quiet m ->
  (forall a s1, k a s1 = Ret r s' -> r = 0 /\ s' = s1) ->
  seq m k s = Ret r s' ->
  exists evs,
    history s' = evs ++ history s /\
    last_call evs = None /\ errno s' = errno s /\ r = 0.
Proof.
  intros Hm Hk Hrun.
  apply seq_Ret in Hrun as (a & s1 & Hfirst & Hrest).
  destruct (Hk _ _ Hrest) as [-> ->].
  destruct (Hm _ _ _ Hfirst) as (evs & ? & ? & ?). now exists evs.
Qed.

Lemma TEMP_FAILURE_RETRY___noop fuel fd s r s' :
  TEMP_FAILURE_RETRY fuel (__noop fd) s = Ret r s' -> r = 0 /\ s' = s.
Proof.
  destruct fuel; [discriminate|]. cbn. now intros [= <- <-].
Qed.

Ltac native :=
  repeat first
    [ apply TEMP_FAILURE_RETRY_reports
    | apply invoke_reports
    | apply seq_quiet_reports;
      [ first [ apply CHECK_OPENED_quiet | apply CHECK_OPENED_SOCKET_quiet ]
      | intros ? ] ].

Lemma reports_use p (m : io Z) s r s' :
  reports p m -> m s = Ret r s' ->
  exists evs,
    history s' = evs ++ history s /\
    exists native, last_call evs = Some (p, native, errno s') /\ r = native.
Proof.
  intros Hm Hrun. destruct (Hm _ _ _ Hrun) as (evs & ? & ?).
  exists evs. split; [assumption|now exists r].
Qed.

Lemma silent_use (s s' : process kernel) (r : Z) :
  r = 0 /\ s' = s ->
  exists evs : list event,
    history s' = evs ++ history s /\
    last_call evs = None /\ errno s' = errno s /\ r = 0.
Proof. intros [-> ->]. now exists []. Qed.

(** What a wrapper returns is what its primitive returned last. *)
Lemma run_hands_on (fuel : nat) (c : call) s r s' :
  run fuel c s = Ret r s' ->
  exists evs,
    history s' = evs ++ history s /\
    match underlying c with
    | Some p =>
        exists native,
          last_call evs = Some (p, native, errno s') /\
          r = handed_on c native
    | None => last_call evs = None /\ errno s' = errno s /\ r = 0
    end.
Proof.
  intros Hrun.
  destruct c; cbn [run underlying handed_on] in *;
    try (refine (reports_use _ _ _ _ _ _ Hrun);
         unfold unlink, lseek, unchecked_fcntl, fcntl, fstat, dup, dup2,
           shutdown, send, sendto, recv, recvfrom, getsockopt, setsockopt,
           listen, bind, connect, fallocate;
         solve [native]).
  - (* socket *)
    refine (reports_use _ _ _ _ _ _ Hrun). unfold socket.
    apply (seq_reports_quiet _ _ (fun a => CHECK_OPEN_SOCKET a "socket" 208));
      [apply invoke_reports|intros a; apply CHECK_OPEN_SOCKET_quiet].
  - (* accept *)
    refine (reports_use _ _ _ _ _ _ Hrun). unfold accept.
    apply seq_quiet_reports; [apply CHECK_OPENED_SOCKET_quiet|intros _].
    apply (seq_reports_quiet _ _ (fun a => CHECK_OPEN_SOCKET a "accept" 239));
      [native|intros a; apply CHECK_OPEN_SOCKET_quiet].
  - (* unchecked_fsync *)
    unfold unchecked_fsync, __io_fsync in Hrun.
    destruct __io_fsync_primitive.
    + refine (reports_use _ _ _ _ _ _ Hrun). native.
    + now apply silent_use, (TEMP_FAILURE_RETRY___noop fuel fd).
  - (* fsync *)
    unfold fsync, unchecked_fsync, __io_fsync in Hrun.
    destruct __io_fsync_primitive.
    + refine (reports_use _ _ _ _ _ _ Hrun). native.
    + refine (seq_quiet_silent _ _ _ _ _ _ _ Hrun);
        [apply CHECK_OPENED_quiet|].
      intros _ s1. apply TEMP_FAILURE_RETRY___noop.
  - (* unchecked_full_fsync *)
    unfold unchecked_full_fsync, __io_fsync in Hrun.
    destruct (F_FULLFSYNC B); [|destruct __io_fsync_primitive].
    + refine (reports_use _ _ _ _ _ _ Hrun). native.
    + refine (reports_use _ _ _ _ _ _ Hrun). native.
    + now apply silent_use, (TEMP_FAILURE_RETRY___noop fuel fd).
  - (* full_fsync *)
    unfold full_fsync, unchecked_full_fsync, __io_fsync in Hrun.
    destruct (F_FULLFSYNC B); [|destruct __io_fsync_primitive].
    + refine (reports_use _ _ _ _ _ _ Hrun). native.
    + refine (reports_use _ _ _ _ _ _ Hrun). native.
    + refine (seq_quiet_silent _ _ _ _ _ _ _ Hrun);
        [apply CHECK_OPENED_quiet|].
      intros _ s1. apply TEMP_FAILURE_RETRY___noop.
  - (* fadvise *)
    unfold fadvise in Hrun. destruct (HAVE_POSIX_FADVISE B).
    + apply seq_Ret in Hrun as ([] & s1 & Hcheck & Hrest).
      apply seq_Ret in Hrest as (native & s2 & Hcall & [= <- <-]).
      destruct (CHECK_OPENED_quiet _ _ _ _ _ _ _ Hcheck) as (evs1 & Hh1 & _).
      destruct (invoke_reports _ _ _ _ Hcall) as (evs2 & Hh2 & Hlast).
      exists (evs2 ++ evs1). rewrite Hh2, Hh1, app_assoc.
      split; [reflexivity|]. exists native.
      split; [now apply last_call_app_Some|reflexivity].
    + refine (seq_quiet_silent _ _ _ _ _ _ _ Hrun);
        [apply CHECK_OPENED_quiet|].
      now intros _ s1 [= <- <-].
Qed.

(** C5, as amended.  [full_fsync] prefers the full-durability primitive
    ([fcntl] with [F_FULLFSYNC]) where the platform defines it, else falls
    back to [fdatasync], else to [fsync], else to a no-op that returns 0 and
    touches nothing; [fsync] starts the same chain at [fdatasync] and never
    uses the full-durability primitive.  The call returns what the chosen
    primitive returns once it is no longer interrupted: success where there
    is no primitive, and otherwise whatever the kernel says.  The checked
    variants do the same once the tracker lets the descriptor through. *)
Theorem sync_fallback_chain (fuel : nat) (fd : Z) s :
  unchecked_full_fsync (S fuel) fd s =
    match F_FULLFSYNC B with
    | Some full =>
        TEMP_FAILURE_RETRY (S fuel) (invoke (sys_fcntl fd full [0])) s
    | None =>
        if HAVE_FDATASYNC B
        then TEMP_FAILURE_RETRY (S fuel) (invoke (sys_fdatasync fd)) s
        else if HAVE_FSYNC B
        then TEMP_FAILURE_RETRY (S fuel) (invoke (sys_fsync fd)) s
        else Ret 0 s
    end /\
  unchecked_fsync (S fuel) fd s =
    (if HAVE_FDATASYNC B
     then TEMP_FAILURE_RETRY (S fuel) (invoke (sys_fdatasync fd)) s
     else if HAVE_FSYNC B
     then TEMP_FAILURE_RETRY (S fuel) (invoke (sys_fsync fd)) s
     else Ret 0 s) /\
  (forall s0,
     CHECK_OPENED "during full_fsync()" fd "full_fsync" 277 s0 = Ret tt s ->
     full_fsync (S fuel) fd s0 = unchecked_full_fsync (S fuel) fd s) /\
  (forall s0,
     CHECK_OPENED "during fsync()" fd "fsync" 262 s0 = Ret tt s ->
     fsync (S fuel) fd s0 = unchecked_fsync (S fuel) fd s).
Proof.
  assert (Hsync :
    TEMP_FAILURE_RETRY (S fuel) (__io_fsync fd) s =
    if HAVE_FDATASYNC B
    then TEMP_FAILURE_RETRY (S fuel) (invoke (sys_fdatasync fd)) s
    else if HAVE_FSYNC B
    then TEMP_FAILURE_RETRY (S fuel) (invoke (sys_fsync fd)) s
    else Ret 0 s).
  { unfold __io_fsync, __io_fsync_primitive.
    destruct (HAVE_FDATASYNC B), (HAVE_FSYNC B); reflexivity. }
  repeat split.
  - unfold unchecked_full_fsync. destruct (F_FULLFSYNC B); [reflexivity|].
    exact Hsync.
  - exact Hsync.
  - intros s0 Hcheck. unfold full_fsync, seq. now rewrite Hcheck.
  - intros s0 Hcheck. unfold fsync, seq. now rewrite Hcheck.
Qed.

(** *** Creation *)

Lemma registration_after (bits : Z) p (m : io Z)
    msg check_unset function line s :
  XAPIAND_CHECK_IO_FDES B = true -> Z.land bits CLOSED = 0 ->
  reports p m -> leaves_tracker m [] ->
  registers_on_success bits p s
    (seq m (fun fd =>
       seq (when_tracking (check msg fd 0 check_unset bits function line))
         (fun _ => ret fd)) s).
Proof.
  intros Hon Hbits Hreports Hleaves. unfold seq, when_tracking.
  rewrite Hon. destruct (Hleaves s) as [Htracked _].
  destruct (m s) as [r s1|d s1|s1] eqn:Hm; cbn [final] in Htracked;
    [|exact Htracked..].
  destruct (Hreports _ _ _ Hm) as (evs & Hh & Hlast).
  pose proof (check_registers msg r 0 check_unset bits function line s1 Hbits)
    as (Hh2 & _ & Hreg).
  destruct (check msg r 0 check_unset bits function line s1)
    as [[] s2|d s2|s2]; cbn [final ret registers_on_success] in *.
  - split; [|split].
    + exists (Checked r 0 check_unset bits :: evs), (errno s1).
      now rewrite Hh2, Hh.
    + intros Hr fd. now rewrite (proj1 Hreg Hr fd).
    + intros Hr. destruct (proj2 Hreg Hr) as (Hnew & Hmarked & Hothers).
      rewrite Hnew, <- Htracked. split; [reflexivity|].
      split; [now rewrite <- Hnew|].
      intros fd Hfd. now rewrite Hothers.
  - intros fd. now rewrite Hreg.
  - intros fd. now rewrite Hreg.
Qed.

Lemma registration_after_precheck {A} (bits : Z) p
    (pre : io A) (body : io Z) masks s :
  leaves_tracker pre masks ->
  (forall s1, registers_on_success bits p s1 (body s1)) ->
  registers_on_success bits p s (seq pre (fun _ => body) s).
Proof.
  intros Hpre Hbody. unfold seq.
  destruct (Hpre s) as (Htracked & evs0 & Hh0 & _).
  destruct (pre s) as [a s1|d s1|s1]; cbn [final] in *;
    [|exact Htracked..].
  specialize (Hbody s1).
  destruct (body s1) as [r s2|d s2|s2]; cbn [registers_on_success] in *.
  - destruct Hbody as ((evs & e & Hh & Hlast) & Hfail & Hok).
    split; [|split].
    + exists (evs ++ evs0), e. rewrite Hh, Hh0, app_assoc.
      split; [reflexivity|now apply last_call_app_Some].
    + intros Hr fd. now rewrite Hfail.
    + intros Hr. destruct (Hok Hr) as (Hnew & Hmarked & Hothers).
      rewrite <- Htracked. repeat split; try assumption.
      intros fd Hfd. now rewrite Hothers.
  - intros fd. now rewrite Hbody.
  - intros fd. now rewrite Hbody.
Qed.

Lemma seq_step {A C} (m : io A) (k : A -> io C) s a s1 :
  m s = Ret a s1 -> seq m k s = k a s1.
Proof. unfold seq. now intros ->. Qed.

Lemma invoke_gives p s r :
  kernel_gives p s r ->
  exists s1, invoke p s = Ret r s1 /\ fdes s1 = fdes s.
Proof.
  unfold kernel_gives, invoke.
  destruct (os p (errno s) (os_state s)) as [[r1 e] k]. cbn [fst].
  intros ->. now eexists.
Qed.

Lemma tracked_fdes (s s1 : process kernel) fd :
  fdes s1 = fdes s -> tracked s1 fd = tracked s fd.
Proof. unfold tracked. now intros ->. Qed.

(** A registration through [check] goes through on the failure sentinel,
    and on a descriptor whose tracked state holds no bit it must not. *)
Lemma check_passes msg r check_unset bits function line s :
  Z.land bits CLOSED = 0 ->
  (r = -1 ->
   exists s',
     check msg r 0 check_unset bits function line s = Ret tt s' /\
     forall fd, tracked s' fd = tracked s fd) /\
  (r <> -1 -> XAPIAND_MINIMUM_FILE_DESCRIPTOR B <= r ->
   Z.land (tracked s r) check_unset = 0 ->
   exists s',
     check msg r 0 check_unset bits function line s = Ret tt s' /\
     tracked s' r = Z.lor (tracked s r) bits /\
     forall fd, fd <> r -> tracked s' fd = tracked s fd).
Proof.
  intros Hbits.
  pose proof (check_registers msg r 0 check_unset bits function line s Hbits)
    as (_ & _ & Hreg).
  split.
  - intros Hr.
    destruct (check_cases msg r 0 check_unset bits function line s)
      as [[_ Hc]|[[[? _] _]|[[[? _] _]|[[? _] _]]]]; try contradiction.
    rewrite Hc in Hreg. eexists. split; [exact Hc|]. exact (proj1 Hreg Hr).
  - intros Hr Hmin Hunset.
    assert (Hc := check_accepts msg r 0 check_unset bits function line s
                    Hr Hmin).
    rewrite Z.land_0_r, Hunset in Hc. specialize (Hc eq_refl).
    rewrite Hc in Hreg. eexists. split; [exact Hc|].
    destruct (proj2 Hreg Hr) as (Hnew & _ & Hothers). now split.
Qed.

Lemma registration_goes_through (bits : Z) msg check_unset function line
    (s s1 : process kernel) r :
  XAPIAND_CHECK_IO_FDES B = true -> Z.land bits CLOSED = 0 ->
  (forall fd, tracked s1 fd = tracked s fd) ->
  created bits s r
    (seq (when_tracking (check msg r 0 check_unset bits function line))
       (fun _ => ret r) s1).
Proof.
  intros Hon Hbits Hsame. unfold when_tracking. rewrite Hon.
  destruct (check_passes msg r check_unset bits function line s1 Hbits)
    as [Hfail Hok].
  split.
  - intros Hr. destruct (Hfail Hr) as (s' & Hc & Htr).
    rewrite (seq_step _ _ _ _ _ Hc). subst r. exists s'.
    split; [reflexivity|]. intros fd. now rewrite Htr.
  - intros Hr Hmin Hfresh.
    destruct (Hok Hr Hmin) as (s' & Hc & Hnew & Hothers).
    { rewrite Hsame, Hfresh. reflexivity. }
    rewrite (seq_step _ _ _ _ _ Hc). exists s'.
    split; [reflexivity|]. rewrite Hnew, Hsame, Hfresh.
    split; [reflexivity|]. intros fd Hfd. now rewrite Hothers.
Qed.

Lemma reenter_fresh fd s :
  fd = -1 \/ tracked s fd <> CLOSED -> reenter fd s = Ret tt s.
Proof.
  unfold reenter, when_tracking.
  destruct (XAPIAND_CHECK_IO_FDES B); [|reflexivity].
  intros [->|Hstate]; [reflexivity|].
  destruct (Z.eqb_spec (tracked s fd) CLOSED); [contradiction|].
  now rewrite andb_false_r.
Qed.


(** C7.  In a build that tracks descriptors, a creation call changes the
    tracker when, and only when, the kernel's call succeeds.  [socket] and
    [accept] return what the kernel returned, however they end: when that
    is -1 every descriptor is tracked as before; when it is a descriptor
    the tracker accepts, that descriptor gets the bits [OPENED | SOCKET]
    and no other descriptor changes; when the tracker stops the process
    nothing is registered.  And they do go through: when the kernel's
    [socket] gives -1, [socket] returns -1 and the registry is as before;
    when it gives a descriptor at or above the minimum that the tracker
    holds as unopened, [socket] returns it and it is then tracked as an
    open socket, no other descriptor changing; so does [accept], once the
    tracker has let the listening socket through and given fuel for the
    interruptions of the kernel's [accept]; so does [open], as the spec has
    it, with the bit [OPENED]. *)
Theorem creation_registers_on_success_only (fuel : nat) s :
  XAPIAND_CHECK_IO_FDES B = true ->
  (forall domain type protocol,
     registers_on_success OpenSocket (sys_socket domain type protocol) s
       (socket domain type protocol s) /\
     forall r,
       kernel_gives (sys_socket domain type protocol) s r ->
       created OpenSocket s r (socket domain type protocol s)) /\
  (forall listening address address_len,
     registers_on_success OpenSocket
       (sys_accept listening address address_len) s
       (accept fuel listening address address_len s) /\
     forall s0 n r s1,
       CHECK_OPENED_SOCKET "during accept()" listening "accept" 237 s
       = Ret tt s0 ->
       settles (invoke (sys_accept listening address address_len)) n s0 r s1 ->
       (n < fuel)%nat ->
       created OpenSocket s r (accept fuel listening address address_len s)) /\
  (forall path oflag mode r,
     kernel_gives (sys_open path oflag mode) s r ->
     created OpenFile s r (open path oflag mode s)).
Proof.
  intros Hon. split; [|split].
  - intros domain type protocol. split.
    + unfold socket, CHECK_OPEN_SOCKET.
      apply registration_after;
        [assumption|reflexivity|apply invoke_reports
        |apply invoke_leaves_tracker].
    + intros r Hgives. destruct (invoke_gives _ _ _ Hgives) as (s1 & Hcall & Hf).
      unfold socket. rewrite (seq_step _ _ _ _ _ Hcall).
      unfold CHECK_OPEN_SOCKET.
      apply registration_goes_through; [assumption|reflexivity|].
      intros fd. now apply tracked_fdes.
  - intros listening address address_len. split.
    + unfold accept.
      eapply registration_after_precheck;
        [apply CHECK_OPENED_SOCKET_leaves_tracker|intros s1].
      unfold CHECK_OPEN_SOCKET.
      apply registration_after; [assumption|reflexivity|native|kernel_only].
    + intros s0 n r s1 Hcheck Hsettles Hfuel.
      pose proof (settles_TEMP_FAILURE_RETRY _ _ _ _ _ Hsettles fuel Hfuel)
        as Hloop.
      unfold accept. rewrite (seq_step _ _ _ _ _ Hcheck).
      rewrite (seq_step _ _ _ _ _ Hloop). unfold CHECK_OPEN_SOCKET.
      apply registration_goes_through; [assumption|reflexivity|].
      intros fd.
      destruct (CHECK_OPENED_SOCKET_leaves_tracker
                  "during accept()" listening "accept" 237 s) as [Hpre _].
      rewrite Hcheck in Hpre. cbn [final] in Hpre.
      destruct (TEMP_FAILURE_RETRY_leaves_tracker fuel _
                  (invoke_leaves_tracker
                     (sys_accept listening address address_len)) s0)
        as [Hbody _].
      rewrite Hloop in Hbody. cbn [final] in Hbody.
      now rewrite Hbody, Hpre.
  - intros path oflag mode r Hgives.
    destruct (invoke_gives _ _ _ Hgives) as (s1 & Hcall & Hf).
    assert (Hsame : forall fd, tracked s1 fd = tracked s fd).
    { intros fd. now apply tracked_fdes. }
    unfold open. rewrite (seq_step _ _ _ _ _ Hcall). split.
    + intros Hr. rewrite (seq_step _ _ _ _ _ (reenter_fresh r s1 (or_introl Hr))).
      unfold CHECK_OPEN.
      now apply registration_goes_through.
    + intros Hr Hmin Hfresh.
      assert (Hstate : r = -1 \/ tracked s1 r <> CLOSED).
      { right. rewrite Hsame, Hfresh. discriminate. }
      rewrite (seq_step _ _ _ _ _ (reenter_fresh r s1 Hstate)).
      unfold CHECK_OPEN.
      apply registration_goes_through; assumption || reflexivity.
Qed.

(** *** Lifecycle violations *)

Lemma seq_Abort {A C} (m : io A) (k : A -> io C) s d s' :
  m s = Abort d s' -> seq m k s = Abort d s'.
Proof. unfold seq. now intros ->. Qed.

Lemma seq_rejected {A C} (m : io A) (k : A -> io C) s :
  rejected (m s) -> rejected (seq m k s).
Proof.
  intros (msg & fd & function & line & s' & Hm).
  exists msg, fd, function, line, s'. now apply seq_Abort.
Qed.

Lemma check_rejected msg fd check_set check_unset set function line s :
  fd <> -1 -> XAPIAND_MINIMUM_FILE_DESCRIPTOR B <= fd ->
  (Z.land (tracked s fd) check_set =? check_set)
  && (Z.land (tracked s fd) check_unset =? 0) = false ->
  rejected (check msg fd check_set check_unset set function line s).
Proof.
  intros Hfd Hmin Hbits. exists msg, fd, function, line. eexists.
  now apply check_rejects.
Qed.


Lemma ret_never_aborts {A} (a : A) : never_aborts (ret a).
Proof. intros s d s'. discriminate. Qed.

Lemma invoke_never_aborts c : never_aborts (invoke c).
Proof.
  intros s d s'. destruct (invoke_Ret c s) as (r & s1 & -> & _).
  discriminate.
Qed.

Lemma seq_never_aborts {A C} (m : io A) (k : A -> io C) :
  never_aborts m -> (forall a, never_aborts (k a)) -> never_aborts (seq m k).
Proof.
  intros Hm Hk s d s'. unfold seq. specialize (Hm s).
  destruct (m s) as [a s1|d1 s1|s1]; [apply Hk| |discriminate].
  now contradiction (Hm d1 s1).
Qed.

Lemma TEMP_FAILURE_RETRY_never_aborts fuel (exp : io Z) :
  never_aborts exp -> never_aborts (TEMP_FAILURE_RETRY fuel exp).
Proof.
  intros Hexp. induction fuel as [|fuel IH]; intros s d s';
    cbn [TEMP_FAILURE_RETRY]; [discriminate|].
  specialize (Hexp s).
  destruct (exp s) as [r s1|d1 s1|s1]; [| |discriminate].
  - destruct ((r =? -1) && (errno s1 =? EINTR E)); [apply IH|discriminate].
  - now contradiction (Hexp d1 s1).
Qed.

Lemma __io_fsync_never_aborts fd : never_aborts (__io_fsync fd).
Proof.
  unfold __io_fsync. destruct __io_fsync_primitive.
  - apply invoke_never_aborts.
  - apply ret_never_aborts.
Qed.

Ltac harmless :=
  repeat first
    [ apply TEMP_FAILURE_RETRY_never_aborts
    | apply invoke_never_aborts
    | apply __io_fsync_never_aborts
    | apply ret_never_aborts
    | apply seq_never_aborts; [|intros ?] ].



(** *** How a wrapper ends *)

Ltac platform_cases :=
  repeat match goal with
    | |- context [F_FULLFSYNC ?b] => destruct (F_FULLFSYNC b)
    | |- context [HAVE_POSIX_FADVISE ?b] => destruct (HAVE_POSIX_FADVISE b)
    end.

Lemma TEMP_FAILURE_RETRY_absorbs fuel (exp : io Z) :
  absorbs (TEMP_FAILURE_RETRY fuel exp).
Proof.
  intros s r s' Hrun.
  destruct (TEMP_FAILURE_RETRY_settles _ _ _ _ _ Hrun) as (n & _ & Hs).
  exact (settles_not_interrupted _ _ _ _ _ Hs).
Qed.

Lemma seq_absorbs {A} (m : io A) (k : A -> io Z) :
  (forall a, absorbs (k a)) -> absorbs (seq m k).
Proof.
  intros Hk s r s' Hrun.
  apply seq_Ret in Hrun as (a & s1 & _ & Hrest). exact (Hk a _ _ _ Hrest).
Qed.

Lemma absorbs_then_quiet (m : io Z) (k : Z -> io unit) :
  absorbs m -> (forall a, quiet (k a)) ->
  absorbs (seq m (fun a => seq (k a) (fun _ => ret a))).
Proof.
  intros Hm Hk s r s' Hrun.
  apply seq_Ret in Hrun as (a & s1 & Hfirst & Hrest).
  apply seq_Ret in Hrest as ([] & s2 & Hcheck & [= -> ->]).
  destruct (Hk _ _ _ _ Hcheck) as (_ & _ & _ & Herrno).
  intros [Hr He]. apply (Hm _ _ _ Hfirst). split; [exact Hr|].
  now rewrite <- Herrno.
Qed.

Lemma run_absorbs fuel c : retried c = true -> absorbs (run fuel c).
Proof.
  destruct c; try discriminate; intros _; cbn [run];
    unfold fcntl, unchecked_fcntl, send, sendto, recv, recvfrom, connect,
      fsync, unchecked_fsync, full_fsync, unchecked_full_fsync, fallocate;
    platform_cases;
    try solve [ apply TEMP_FAILURE_RETRY_absorbs
              | apply seq_absorbs; intros _;
                apply TEMP_FAILURE_RETRY_absorbs ].
  unfold accept. apply seq_absorbs. intros _.
  apply (absorbs_then_quiet _ (fun a => CHECK_OPEN_SOCKET a "accept" 239));
    [apply TEMP_FAILURE_RETRY_absorbs|intros a; apply CHECK_OPEN_SOCKET_quiet].
Qed.

Lemma ret_never_spins {A} (a : A) : never_spins (ret a).
Proof. intros s s'. discriminate. Qed.

Lemma invoke_never_spins c : never_spins (invoke c).
Proof.
  intros s s'. destruct (invoke_Ret c s) as (r & s1 & -> & _). discriminate.
Qed.

Lemma check_never_spins msg fd check_set check_unset set function line :
  never_spins (check msg fd check_set check_unset set function line).
Proof.
  intros s s'.
  destruct (check_cases msg fd check_set check_unset set function line s)
    as [[_ ->]|[[_ ->]|[[_ ->]|[_ ->]]]]; discriminate.
Qed.

Lemma when_tracking_never_spins (m : io unit) :
  never_spins m -> never_spins (when_tracking m).
Proof.
  unfold when_tracking. destruct (XAPIAND_CHECK_IO_FDES B); [trivial|].
  intros _. apply ret_never_spins.
Qed.

Lemma seq_never_spins {A C} (m : io A) (k : A -> io C) :
  never_spins m -> (forall a, never_spins (k a)) -> never_spins (seq m k).
Proof.
  intros Hm Hk s s'. unfold seq. specialize (Hm s).
  destruct (m s) as [a s1|d s1|s1]; [apply Hk|discriminate|].
  now contradiction (Hm s1).
Qed.

Lemma TEMP_FAILURE_RETRY_spins fuel (exp : io Z) :
  never_spins exp -> spins_interrupted fuel (TEMP_FAILURE_RETRY fuel exp).
Proof.
  intros Hexp. induction fuel as [|fuel IH]; intros s s' Hrun; [now left|].
  right. cbn [TEMP_FAILURE_RETRY] in Hrun. specialize (Hexp s).
  destruct (exp s) as [r s1|d s1|s1]; [|discriminate|].
  - destruct (Z.eqb_spec r (-1)) as [_|_]; [|discriminate].
    destruct (Z.eqb_spec (errno s1) (EINTR E)) as [He|_]; [|discriminate].
    cbn [andb] in Hrun. destruct (IH _ _ Hrun) as [->|]; [|assumption].
    cbn [TEMP_FAILURE_RETRY] in Hrun. now injection Hrun as <-.
  - now contradiction (Hexp s1).
Qed.

Lemma seq_spins {A C} fuel (m : io A) (k : A -> io C) :
  never_spins m -> (forall a, spins_interrupted fuel (k a)) ->
  spins_interrupted fuel (seq m k).
Proof.
  intros Hm Hk s s'. unfold seq. specialize (Hm s).
  destruct (m s) as [a s1|d s1|s1]; [apply Hk|discriminate|].
  now contradiction (Hm s1).
Qed.

Lemma spins_then_steady {A C} fuel (m : io A) (k : A -> io C) :
  spins_interrupted fuel m -> (forall a, never_spins (k a)) ->
  spins_interrupted fuel (seq m k).
Proof.
  intros Hm Hk s s'. unfold seq. specialize (Hm s).
  destruct (m s) as [a s1|d s1|s1]; [|discriminate|].
  - intros Hrun. now contradiction (Hk a s1 s').
  - intros [= <-]. now apply Hm.
Qed.

Lemma __io_fsync_never_spins fd : never_spins (__io_fsync fd).
Proof.
  unfold __io_fsync. destruct __io_fsync_primitive.
  - apply invoke_never_spins.
  - apply ret_never_spins.
Qed.

Ltac steady :=
  unfold CHECK_OPENED, CHECK_OPENED_SOCKET, CHECK_OPEN_SOCKET;
  repeat first
    [ apply invoke_never_spins
    | apply ret_never_spins
    | apply __io_fsync_never_spins
    | apply when_tracking_never_spins, check_never_spins
    | apply seq_never_spins; [|intros ?] ].

Ltac looping :=
  repeat first
    [ apply TEMP_FAILURE_RETRY_spins; steady
    | apply seq_spins; [solve [steady]|intros ?] ].

Lemma run_spins fuel c :
  if retried c then spins_interrupted fuel (run fuel c)
  else never_spins (run fuel c).
Proof.
  destruct c; cbn [run retried];
    unfold unlink, lseek, fcntl, unchecked_fcntl, fstat, dup, dup2, shutdown,
      send, sendto, recv, socket, recvfrom, getsockopt, setsockopt, listen,
      bind, connect, fsync, unchecked_fsync, full_fsync,
      unchecked_full_fsync, fallocate, fadvise;
    platform_cases;
    try solve [steady | looping].
  unfold accept. apply seq_spins; [solve [steady]|intros _].
  apply spins_then_steady; [looping|intros a; steady].
Qed.

Lemma when_tracking_off_never_aborts (m : io unit) :
  XAPIAND_CHECK_IO_FDES B = false -> never_aborts (when_tracking m).
Proof. unfold when_tracking. intros ->. apply ret_never_aborts. Qed.

Lemma run_never_aborts_untracked fuel c :
  XAPIAND_CHECK_IO_FDES B = false -> never_aborts (run fuel c).
Proof.
  intros Hoff.
  destruct c; cbn [run];
    unfold unlink, lseek, fcntl, unchecked_fcntl, fstat, dup, dup2, shutdown,
      send, sendto, recv, socket, recvfrom, getsockopt, setsockopt, listen,
      accept, bind, connect, fsync, unchecked_fsync, full_fsync,
      unchecked_full_fsync, fallocate, fadvise,
      CHECK_OPENED, CHECK_OPENED_SOCKET, CHECK_OPEN_SOCKET;
    platform_cases;
    repeat first
      [ apply TEMP_FAILURE_RETRY_never_aborts
      | apply invoke_never_aborts
      | apply __io_fsync_never_aborts
      | apply ret_never_aborts
      | apply when_tracking_off_never_aborts; exact Hoff
      | apply seq_never_aborts; [|intros ?] ].
Qed.

(** C6, as amended.  However a wrapper of the header ends: when it returns,
    it hands on what its kernel primitive returned at its last invocation,
    unchanged, with [errno] as that invocation left it, and where the
    platform has no primitive it returns 0 and leaves [errno] alone; the
    exception is [fadvise], which returns 1 when [posix_fadvise] returned 0
    and 0 when it returned anything else.  A retried wrapper never returns
    an interruption; it is still looping only while the kernel keeps
    interrupting it.  Only the tracker of a diagnostic build stops the
    process. *)
Theorem wrappers_hand_on_the_native_result (fuel : nat) (c : call) s :
  defined_here c = true ->
  match run fuel c s with
  | Ret r s' =>
      (exists evs,
         history s' = evs ++ history s /\
         match underlying c with
         | Some p =>
             exists native,
               last_call evs = Some (p, native, errno s') /\
               r = handed_on c native
         | None => last_call evs = None /\ errno s' = errno s /\ r = 0
         end) /\
      (retried c = true -> ~ interrupted r s')
  | Abort _ _ => XAPIAND_CHECK_IO_FDES B = true
  | Spin s' => retried c = true /\ (fuel = O \/ errno s' = EINTR E)
  end.
Proof.
  intros _. destruct (run fuel c s) as [r s'|d s'|s'] eqn:Hrun.
  - split; [exact (run_hands_on _ _ _ _ _ Hrun)|].
    intros Hretried. exact (run_absorbs fuel c Hretried _ _ _ Hrun).
  - destruct (XAPIAND_CHECK_IO_FDES B) eqn:Hoff; [reflexivity|].
    now contradiction (run_never_aborts_untracked fuel c Hoff s d s').
  - pose proof (run_spins fuel c) as Hspins.
    destruct (retried c).
    + split; [reflexivity|exact (Hspins _ _ Hrun)].
    + now contradiction (Hspins s s').
Qed.

(** *** More on the retry loop *)

(** X1.  While the kernel interrupts every invocation of a call, the retry
    loop never leaves: whatever fuel it is given, it is still looping when
    the fuel is gone, having invoked the call once per round and nothing
    else.  The loop has no bound and no way out but a result that is not
    an interruption. *)
Theorem interrupt_storm_never_returns (c : syscall) :
  (forall e k, exists k', os c e k = (-1, EINTR E, k')) ->
  forall fuel s,
    exists s',
      TEMP_FAILURE_RETRY fuel (invoke c) s = Spin s' /\
      history s' = repeat (Called c (-1) (EINTR E)) fuel ++ history s.
Proof.
  intros Hstorm. induction fuel as [|fuel IH]; intros s.
  - now exists s.
  - cbn [TEMP_FAILURE_RETRY]. unfold invoke at 1.
    destruct (Hstorm (errno s) (os_state s)) as (k' & ->).
    cbn [errno]. rewrite !Z.eqb_refl. cbn [andb].
    match goal with
    | |- context [TEMP_FAILURE_RETRY fuel _ ?s1] =>
        destruct (IH s1) as (s' & -> & Hh)
    end.
    exists s'. split; [reflexivity|]. rewrite Hh. cbn [history].
    change (Called c (-1) (EINTR E) :: history s)
      with ([Called c (-1) (EINTR E)] ++ history s).
    rewrite app_assoc, <- repeat_cons. reflexivity.
Qed.

(** *** More on the classification *)

(** X2.  Switching a flag on never turns an ignored error into a
    propagated one: whatever is ignored under [again], [tcp], [udp] and the
    process flag is still ignored when any of the four is raised. *)
Theorem ignored_errorno_monotone s s2 (e : Z)
    (again tcp udp again2 tcp2 udp2 : bool) :
  (ignore_intr s = true -> ignore_intr s2 = true) ->
  (again = true -> again2 = true) ->
  (tcp = true -> tcp2 = true) ->
  (udp = true -> udp2 = true) ->
  ignored_errorno s e again tcp udp = Ignore ->
  ignored_errorno s2 e again2 tcp2 udp2 = Ignore.
Proof.
  unfold ignored_errorno, Ignore. intros Hflag Hagain Htcp Hudp.
  destruct (switch e case_labels) as [[]|]; auto.
Qed.

Lemma switch_some e cases :
  In e (map fst cases) -> exists a, switch e cases = Some a.
Proof.
  induction cases as [|[label b] rest IH]; cbn [switch map fst In];
    [contradiction|].
  destruct (Z.eqb_spec e label) as [->|Hne]; [now exists b|].
  intros [Heq|Hin]; [congruence|auto].
Qed.

Lemma label_ignorable e a : In (e, a) case_labels -> In e ignorable.
Proof.
  unfold case_labels, ignorable, connectionless_routing.
  rewrite !in_app_iff. cbn [In].
  destruct (EAGAIN E =? EWOULDBLOCK E), (ENONET E); cbn [In];
    intuition (try congruence);
    match goal with H : (_, _) = (_, _) |- _ => injection H as <- _ end;
    tauto.
Qed.

Lemma ignorable_label e : In e ignorable -> In e (map fst case_labels).
Proof.
  unfold case_labels, ignorable, connectionless_routing.
  rewrite !map_app, !in_app_iff. cbn [In map fst].
  destruct (Z.eqb_spec (EAGAIN E) (EWOULDBLOCK E)) as [Heq|_], (ENONET E);
    cbn [In map fst]; rewrite ?Heq; intuition (subst; tauto).
Qed.

(** X3.  The codes the classification can ever ignore are [EINTR],
    [EAGAIN], [EWOULDBLOCK], [EPIPE], [EINPROGRESS] and the codes of
    connectionless routing: no flag makes it ignore any other code, and
    with the process flag and the three parameters all on it ignores
    every one of them. *)
Theorem ignored_errorno_ignores_the_labels_only
    s (e : Z) (again tcp udp : bool) :
  (ignored_errorno s e again tcp udp = Ignore -> In e ignorable) /\
  (ignore_intr s = true -> In e ignorable ->
   ignored_errorno s e true true true = Ignore).
Proof.
  unfold ignored_errorno, Ignore. split.
  - destruct (switch e case_labels) as [a|] eqn:Hsw; [|discriminate].
    intros _. exact (label_ignorable _ _ (switch_found _ _ _ Hsw)).
  - intros Hflag Hin.
    destruct (switch_some _ _ (ignorable_label _ Hin)) as (a & ->).
    now destruct a.
Qed.

(** *** The kernel calls of a wrapper *)

Lemma calls_app evs evs' : calls (evs ++ evs') = calls evs ++ calls evs'.
Proof.
  induction evs as [|[] evs IH]; cbn [calls app]; [reflexivity| |assumption].
  now rewrite IH.
Qed.

Lemma calls_quiet evs : last_call evs = None -> calls evs = [].
Proof.
  induction evs as [|[] evs IH]; cbn [calls last_call];
    [reflexivity|discriminate|assumption].
Qed.

Lemma invoke_calls p : calls_its_primitive p false (invoke p).
Proof.
  intros s r s' Hrun.
  destruct (invoke_Ret p s) as (r1 & s1 & Heq & Hh & _).
  rewrite Heq in Hrun. injection Hrun as -> ->.
  exists [Called p r (errno s')], O. now rewrite Hh.
Qed.

Lemma TEMP_FAILURE_RETRY_invoke_calls fuel p :
  calls_its_primitive p true (TEMP_FAILURE_RETRY fuel (invoke p)).
Proof.
  induction fuel as [|fuel IH]; intros s r s' Hrun; [discriminate|].
  cbn [TEMP_FAILURE_RETRY] in Hrun.
  destruct (invoke_Ret p s) as (r1 & s1 & Heq & Hh & _).
  rewrite Heq in Hrun.
  destruct (Z.eqb_spec r1 (-1)) as [Hr|Hr]; cbn [andb] in Hrun;
    [destruct (Z.eqb_spec (errno s1) (EINTR E)) as [He|He]|].
  - destruct (IH _ _ _ Hrun) as (evs & n & Hh2 & Hcalls & _).
    exists (evs ++ [Called p r1 (errno s1)]), (S n).
    rewrite Hh2, Hh, <- app_assoc. split; [reflexivity|].
    split; [|discriminate].
    rewrite calls_app, Hcalls, Hr, He. cbn [calls app repeat].
    now rewrite repeat_cons.
  - injection Hrun as -> ->. exists [Called p r (errno s')], O.
    now rewrite Hh.
  - injection Hrun as -> ->. exists [Called p r (errno s')], O.
    now rewrite Hh.
Qed.

Lemma seq_quiet_calls {A} p retries (pre : io A) (k : A -> io Z) :
  quiet pre -> (forall a, calls_its_primitive p retries (k a)) ->
  calls_its_primitive p retries (seq pre k).
Proof.
  intros Hpre Hk s r s' Hrun.
  apply seq_Ret in Hrun as (a & s1 & Hfirst & Hrest).
  destruct (Hpre _ _ _ Hfirst) as (evs1 & Hh1 & Hnone & _).
  destruct (Hk a _ _ _ Hrest) as (evs2 & n & Hh2 & Hcalls & Hn).
  exists (evs2 ++ evs1), n. rewrite Hh2, Hh1, app_assoc.
  split; [reflexivity|]. split; [|exact Hn].
  now rewrite calls_app, (calls_quiet _ Hnone), app_nil_r.
Qed.

Lemma seq_calls_quiet p retries (m : io Z) (k : Z -> io unit) :
  calls_its_primitive p retries m -> (forall a, quiet (k a)) ->
  calls_its_primitive p retries
    (seq m (fun a => seq (k a) (fun _ => ret a))).
Proof.
  intros Hm Hk s r s' Hrun.
  apply seq_Ret in Hrun as (a & s1 & Hfirst & Hrest).
  apply seq_Ret in Hrest as ([] & s2 & Hcheck & [= -> ->]).
  destruct (Hm _ _ _ Hfirst) as (evs1 & n & Hh1 & Hcalls & Hn).
  destruct (Hk _ _ _ _ Hcheck) as (evs2 & Hh2 & Hnone & Herrno).
  exists (evs2 ++ evs1), n. rewrite Hh2, Hh1, app_assoc.
  split; [reflexivity|]. split; [|exact Hn].
  now rewrite calls_app, (calls_quiet _ Hnone), Herrno.
Qed.

Lemma calls_use p retries (m : io Z) s r s' :
  calls_its_primitive p retries m -> m s = Ret r s' ->
  exists evs,
    history s' = evs ++ history s /\
    exists native n,
      calls evs = (p, native, errno s') :: repeat (p, -1, EINTR E) n /\
      (retries = false -> n = O) /\ r = native.
Proof.
  intros Hm Hrun. destruct (Hm _ _ _ Hrun) as (evs & n & Hh & Hcalls & Hn).
  exists evs. split; [exact Hh|]. now exists r, n.
Qed.

Ltac tally :=
  repeat first
    [ apply TEMP_FAILURE_RETRY_invoke_calls
    | apply invoke_calls
    | apply seq_quiet_calls;
      [ first [ apply CHECK_OPENED_quiet | apply CHECK_OPENED_SOCKET_quiet ]
      | intros ? ] ].

(** X4.  A wrapper whose body is in the header for the build at hand, and
    that returns, has called no primitive but its own: once when it does
    not retry, and otherwise once for the result it returns after once for
    each interruption it absorbed; a wrapper whose platform has no
    primitive has not called the kernel at all.  (So a [send] that went
    through is never sent twice.) *)
Theorem wrappers_call_their_primitive_only (fuel : nat) (c : call) s r s' :
  defined_here c = true ->
  run fuel c s = Ret r s' ->
  exists evs,
    history s' = evs ++ history s /\
    match underlying c with
    | Some p =>
        exists native n,
          calls evs = (p, native, errno s') :: repeat (p, -1, EINTR E) n /\
          (retried c = false -> n = O) /\
          r = handed_on c native
    | None => calls evs = []
    end.
Proof.
  intros _ Hrun. destruct (underlying c) as [p|] eqn:Hp.
  - destruct c; cbn [underlying] in Hp;
      try (injection Hp as <-); cbn [run retried handed_on] in *;
      try (refine (calls_use _ _ _ _ _ _ _ Hrun);
           unfold unlink, lseek, fcntl, unchecked_fcntl, fstat, dup, dup2,
             shutdown, send, sendto, recv, recvfrom, getsockopt, setsockopt,
             listen, bind, connect, fallocate;
           solve [tally]).
    + (* socket *)
      refine (calls_use _ _ _ _ _ _ _ Hrun). unfold socket.
      apply (seq_calls_quiet _ _ _
               (fun a => CHECK_OPEN_SOCKET a "socket" 208));
        [apply invoke_calls|intros a; apply CHECK_OPEN_SOCKET_quiet].
    + (* accept *)
      refine (calls_use _ _ _ _ _ _ _ Hrun). unfold accept.
      apply seq_quiet_calls; [apply CHECK_OPENED_SOCKET_quiet|intros _].
      apply (seq_calls_quiet _ _ _
               (fun a => CHECK_OPEN_SOCKET a "accept" 239));
        [tally|intros a; apply CHECK_OPEN_SOCKET_quiet].
    + (* unchecked_fsync *)
      unfold unchecked_fsync, __io_fsync in Hrun.
      destruct __io_fsync_primitive; [injection Hp as <-|discriminate].
      refine (calls_use _ _ _ _ _ _ _ Hrun). tally.
    + (* fsync *)
      unfold fsync, unchecked_fsync, __io_fsync in Hrun.
      destruct __io_fsync_primitive; [injection Hp as <-|discriminate].
      refine (calls_use _ _ _ _ _ _ _ Hrun). tally.
    + (* unchecked_full_fsync *)
      unfold unchecked_full_fsync, __io_fsync in Hrun.
      destruct (F_FULLFSYNC B);
        [|destruct __io_fsync_primitive; [|discriminate]];
        injection Hp as <-; refine (calls_use _ _ _ _ _ _ _ Hrun); tally.
    + (* full_fsync *)
      unfold full_fsync, unchecked_full_fsync, __io_fsync in Hrun.
      destruct (F_FULLFSYNC B);
        [|destruct __io_fsync_primitive; [|discriminate]];
        injection Hp as <-; refine (calls_use _ _ _ _ _ _ _ Hrun); tally.
    + (* fadvise *)
      unfold fadvise in Hrun.
      destruct (HAVE_POSIX_FADVISE B); [injection Hp as <-|discriminate].
      apply seq_Ret in Hrun as ([] & s1 & Hcheck & Hrest).
      apply seq_Ret in Hrest as (native & s2 & Hcall & [= <- <-]).
      destruct (CHECK_OPENED_quiet _ _ _ _ _ _ _ Hcheck)
        as (evs1 & Hh1 & Hnone & _).
      destruct (invoke_calls _ _ _ _ Hcall) as (evs2 & n & Hh2 & Hcalls & Hn).
      exists (evs2 ++ evs1). rewrite Hh2, Hh1, app_assoc.
      split; [reflexivity|]. exists native, n.
      rewrite calls_app, (calls_quiet _ Hnone), app_nil_r.
      repeat split; auto.
  - destruct (run_hands_on _ _ _ _ _ Hrun) as (evs & Hh & Hnone).
    rewrite Hp in Hnone. exists evs. split; [exact Hh|].
    now apply calls_quiet.
Qed.

(** X7.  When a wrapper that retries, and whose body is in the header for
    the build at hand, returns the failure sentinel, the error it leaves in
    [errno] is not [EINTR], so the classification of that error is the same
    whatever the process flag holds. *)
Theorem retried_failure_is_classified_without_the_flag
    (fuel : nat) (c : call) s s' :
  defined_here c = true ->
  retried c = true ->
  run fuel c s = Ret (-1) s' ->
  errno s' <> EINTR E /\
  forall s2 again tcp udp,
    ignored_errorno s2 (errno s') again tcp udp
    = ignored_errorno s' (errno s') again tcp udp.
Proof.
  intros _ Hretried Hrun.
  assert (Herrno : errno s' <> EINTR E).
  { intros He. now apply (run_absorbs fuel c Hretried _ _ _ Hrun). }
  split; [exact Herrno|]. intros s2 again tcp udp. unfold ignored_errorno.
  destruct (switch (errno s') case_labels) as [[]|] eqn:Hsw; try reflexivity.
  apply switch_found, EINTR_is_the_only_ret_intr in Hsw. contradiction.
Qed.

(** *** The tracker and the kernel *)

Lemma kernel_untouched_refl s : kernel_untouched s s.
Proof. repeat split. now exists []. Qed.

Lemma check_tracker_only msg fd check_set check_unset set function line :
  tracker_only fd
    (when_tracking (check msg fd check_set check_unset set function line)).
Proof.
  intros s. unfold when_tracking.
  destruct (XAPIAND_CHECK_IO_FDES B); [|apply kernel_untouched_refl].
  assert (Hnote : kernel_untouched s
            (note (Checked fd check_set check_unset set) s)).
  { repeat split. now exists [Checked fd check_set check_unset set]. }
  destruct (check_cases msg fd check_set check_unset set function line s)
    as [[_ ->]|[[_ ->]|[[_ ->]|[_ ->]]]]; cbn [about].
  - exact Hnote.
  - split; [reflexivity|split; [reflexivity|exact Hnote]].
  - split; [reflexivity|split; [reflexivity|exact Hnote]].
  - exact Hnote.
Qed.

Lemma CHECK_OPENED_tracker_only msg fd function line :
  tracker_only fd (CHECK_OPENED msg fd function line).
Proof. apply check_tracker_only. Qed.

Lemma CHECK_OPENED_SOCKET_tracker_only msg fd function line :
  tracker_only fd (CHECK_OPENED_SOCKET msg fd function line).
Proof. apply check_tracker_only. Qed.

Lemma CHECK_OPEN_SOCKET_tracker_only fd function line :
  tracker_only fd (CHECK_OPEN_SOCKET fd function line).
Proof. apply check_tracker_only. Qed.

Lemma prechecked_abort {A} fd (pre : io unit) (body : io A) s d s' :
  tracker_only fd pre -> never_aborts body ->
  seq pre (fun _ => body) s = Abort d s' ->
  XAPIAND_CHECK_IO_FDES B = true /\ about d = fd /\ kernel_untouched s s'.
Proof.
  intros Hpre Hbody. unfold seq. specialize (Hpre s).
  destruct (pre s) as [[] s1|d1 s1|s1].
  - intros Hrun. now contradiction (Hbody s1 d s').
  - now intros [= <- <-].
  - discriminate.
Qed.

Lemma never_aborts_use {A} (m : io A) s d s' :
  never_aborts m -> m s = Abort d s' -> False.
Proof. intros Hm Hrun. exact (Hm _ _ _ Hrun). Qed.

(** X6.  When the tracker stops a wrapper that creates no descriptor, and
    whose body is in the header for the build at hand, the kernel has not
    been called: [errno] and the kernel's state are as before the wrapper,
    the build is one that tracks descriptors, and the diagnostic is about
    the descriptor the wrapper was given.  The pre-check comes first and
    nothing comes after a refusal. *)
Theorem stopped_before_the_kernel (fuel : nat) (c : call) s d s' :
  defined_here c = true ->
  creating c = false ->
  run fuel c s = Abort d s' ->
  XAPIAND_CHECK_IO_FDES B = true /\
  kernel_untouched s s' /\
  (precheck_of c = opened (about d) \/
   precheck_of c = opened_socket (about d)).
Proof.
  intros _ Hcreating Hrun.
  destruct c; try discriminate; cbn [run precheck_of] in *;
    unfold unlink, lseek, fcntl, unchecked_fcntl, fstat, dup, dup2, shutdown,
      send, sendto, recv, recvfrom, getsockopt, setsockopt, listen, bind,
      connect, fsync, unchecked_fsync, full_fsync, unchecked_full_fsync,
      fallocate, fadvise in Hrun;
    repeat match type of Hrun with
      | context [F_FULLFSYNC ?b] => destruct (F_FULLFSYNC b)
      | context [HAVE_POSIX_FADVISE ?b] => destruct (HAVE_POSIX_FADVISE b)
      end;
    try (exfalso; refine (never_aborts_use _ _ _ _ _ Hrun); solve [harmless]);
    (eapply prechecked_abort in Hrun;
     [ | first [ apply CHECK_OPENED_tracker_only
               | apply CHECK_OPENED_SOCKET_tracker_only ]
       | harmless ]);
    destruct Hrun as (Hon & <- & Huntouched); auto.
Qed.

Lemma invoke_answer p s r e k :
  os p (errno s) (os_state s) = (r, e, k) ->
  exists s', invoke p s = Ret r s' /\ errno s' = e /\ os_state s' = k.
Proof. intros Hos. unfold invoke. rewrite Hos. now eexists. Qed.

Lemma prechecked_invoke fd (pre : io unit) p s r e k :
  tracker_only fd pre ->
  os p (errno s) (os_state s) = (r, e, k) ->
  match seq pre (fun _ => invoke p) s with
  | Ret r' s' => r' = r /\ errno s' = e /\ os_state s' = k
  | Abort _ _ => XAPIAND_CHECK_IO_FDES B = true
  | Spin _ => False
  end.
Proof.
  intros Hpre Hos. unfold seq. specialize (Hpre s).
  destruct (pre s) as [[] s1|d1 s1|s1]; [|tauto|exact Hpre].
  destruct Hpre as (Herrno & Hstate & _). rewrite <- Herrno, <- Hstate in Hos.
  now destruct (invoke_answer _ _ _ _ _ Hos) as (s' & -> & ? & ?).
Qed.

Lemma prechecked_invoke_interrupted fd (pre : io unit) p s k :
  tracker_only fd pre ->
  os p (errno s) (os_state s) = (-1, EINTR E, k) ->
  match seq pre (fun _ => invoke p) s with
  | Ret r s' => interrupted r s' /\ os_state s' = k
  | Abort _ _ => XAPIAND_CHECK_IO_FDES B = true
  | Spin _ => False
  end.
Proof.
  intros Hpre Hos. pose proof (prechecked_invoke _ _ _ _ _ _ _ Hpre Hos) as H.
  destruct (seq pre (fun _ => invoke p) s) as [r s'| |]; [|exact H..].
  destruct H as (-> & ? & ?). now repeat split.
Qed.

(** X5.  A wrapper that does not retry shows an interruption to its caller:
    when the kernel answers its primitive with -1 and [EINTR], the wrapper
    ([unlink], [lseek], [fstat], [dup], [dup2], [shutdown], [socket],
    [getsockopt], [setsockopt], [listen], [bind]) returns -1 with [errno]
    equal to [EINTR], unless the tracker of a diagnostic build stops it. *)
Theorem unretried_wrappers_show_the_interruption
    (fuel : nat) (c : call) p s k :
  retried c = false ->
  underlying c = Some p ->
  handed_on c (-1) = -1 ->
  os p (errno s) (os_state s) = (-1, EINTR E, k) ->
  match run fuel c s with
  | Ret r s' => interrupted r s' /\ os_state s' = k
  | Abort _ _ => XAPIAND_CHECK_IO_FDES B = true
  | Spin _ => False
  end.
Proof.
  intros Hretried Hp Hhanded Hos.
  destruct c; try discriminate; cbn [underlying] in Hp;
    try (injection Hp as <-); cbn [run];
    unfold lseek, fstat, dup, dup2, shutdown, getsockopt, setsockopt, listen,
      bind;
    try (eapply prechecked_invoke_interrupted;
         [ first [ apply CHECK_OPENED_tracker_only
                 | apply CHECK_OPENED_SOCKET_tracker_only ]
         | exact Hos ]).
  - (* unlink *)
    unfold unlink.
    destruct (invoke_answer _ _ _ _ _ Hos) as (s' & -> & ? & ?).
    now repeat split.
  - (* socket *)
    unfold socket, seq at 1.
    destruct (invoke_answer _ _ _ _ _ Hos) as (s1 & -> & He & Hk).
    unfold seq.
    pose proof (CHECK_OPEN_SOCKET_tracker_only (-1) "socket" 208 s1) as Hpost.
    destruct (CHECK_OPEN_SOCKET (-1) "socket" 208 s1) as [[] s2|d s2|s2];
      [|tauto|exact Hpost].
    destruct Hpost as (Herrno & Hstate & _). cbn [ret].
    repeat split; congruence.
Qed.

(** *** Builds and wrappers without the tracker *)

Lemma ret_untracked {A} (a : A) : untracked (ret a).
Proof. intros s. split; [reflexivity|now exists []]. Qed.

Lemma invoke_untracked c : untracked (invoke c).
Proof.
  intros s. destruct (invoke_Ret c s) as (r & s' & -> & Hh & Hf & _).
  cbn [final]. split; [exact Hf|].
  exists [Called c r (errno s')]. now rewrite Hh.
Qed.

Lemma set_masks_app evs evs' :
  set_masks (evs ++ evs') = set_masks evs ++ set_masks evs'.
Proof.
  induction evs as [|[] evs IH]; cbn [set_masks app];
    [reflexivity|assumption|].
  now rewrite IH.
Qed.

Lemma seq_untracked {A C} (m : io A) (k : A -> io C) :
  untracked m -> (forall a, untracked (k a)) -> untracked (seq m k).
Proof.
  intros Hm Hk s. unfold seq. specialize (Hm s).
  destruct (m s) as [a s1|d s1|s1]; cbn [final] in *; try exact Hm.
  destruct Hm as (Hf & evs & Hh & Hmasks).
  destruct (Hk a s1) as (Hf' & evs' & Hh' & Hmasks').
  split; [congruence|]. exists (evs' ++ evs).
  rewrite Hh', Hh, app_assoc. split; [reflexivity|].
  now rewrite set_masks_app, Hmasks, Hmasks'.
Qed.

Lemma TEMP_FAILURE_RETRY_untracked fuel (exp : io Z) :
  untracked exp -> untracked (TEMP_FAILURE_RETRY fuel exp).
Proof.
  intros Hexp. induction fuel as [|fuel IH]; intros s;
    cbn [TEMP_FAILURE_RETRY final].
  - split; [reflexivity|now exists []].
  - pose proof (Hexp s) as Hs.
    destruct (exp s) as [r s1|d s1|s1]; cbn [final] in *; try exact Hs.
    destruct ((r =? -1) && (errno s1 =? EINTR E)); [|exact Hs].
    destruct Hs as (Hf & evs & Hh & Hmasks).
    destruct (IH s1) as (Hf' & evs' & Hh' & Hmasks').
    split; [congruence|]. exists (evs' ++ evs).
    rewrite Hh', Hh, app_assoc. split; [reflexivity|].
    now rewrite set_masks_app, Hmasks, Hmasks'.
Qed.

Lemma __io_fsync_untracked fd : untracked (__io_fsync fd).
Proof.
  unfold __io_fsync. destruct __io_fsync_primitive.
  - apply invoke_untracked.
  - apply ret_untracked.
Qed.

Lemma when_tracking_off_untracked (m : io unit) :
  XAPIAND_CHECK_IO_FDES B = false -> untracked (when_tracking m).
Proof. unfold when_tracking. intros ->. apply ret_untracked. Qed.

Lemma run_untracked_unchecked fuel c :
  precheck_of c = unchecked -> creating c = false ->
  untracked (run fuel c) /\ never_aborts (run fuel c).
Proof.
  destruct c; try discriminate; intros _ _; cbn [run];
    unfold unlink, unchecked_fcntl, unchecked_fsync, unchecked_full_fsync;
    platform_cases;
    (split;
     [ repeat first
         [ apply TEMP_FAILURE_RETRY_untracked
         | apply invoke_untracked
         | apply __io_fsync_untracked ]
     | harmless ]).
Qed.

Lemma run_untracked_off fuel c :
  XAPIAND_CHECK_IO_FDES B = false -> untracked (run fuel c).
Proof.
  intros Hoff.
  destruct c; cbn [run];
    unfold unlink, lseek, fcntl, unchecked_fcntl, fstat, dup, dup2, shutdown,
      send, sendto, recv, socket, recvfrom, getsockopt, setsockopt, listen,
      accept, bind, connect, fsync, unchecked_fsync, full_fsync,
      unchecked_full_fsync, fallocate, fadvise,
      CHECK_OPENED, CHECK_OPENED_SOCKET, CHECK_OPEN_SOCKET;
    platform_cases;
    repeat first
      [ apply TEMP_FAILURE_RETRY_untracked
      | apply invoke_untracked
      | apply __io_fsync_untracked
      | apply ret_untracked
      | apply when_tracking_off_untracked; exact Hoff
      | apply seq_untracked; [|intros ?] ].
Qed.

(** X8.  In a build without [XAPIAND_CHECK_IO_FDES] the macros expand to
    nothing: no wrapper of the header, the creating ones included, invokes
    the tracker or writes to its registry, however the call ends. *)
Theorem production_build_never_tracks (fuel : nat) (c : call) s :
  XAPIAND_CHECK_IO_FDES B = false ->
  fdes (final (run fuel c s)) = fdes s /\
  exists evs,
    history (final (run fuel c s)) = evs ++ history s /\
    set_masks evs = [].
Proof. intros Hoff. exact (run_untracked_off fuel c Hoff s). Qed.

(** X9.  The wrappers without a pre-check ([unlink], [unchecked_fcntl],
    [unchecked_fsync], [unchecked_full_fsync]) go past the tracker in every
    build: whatever the descriptor, also one below the minimum or one that
    was never opened, they are never stopped, never invoke the tracker and
    leave its registry alone. *)
Theorem unchecked_wrappers_bypass_the_tracker (fuel : nat) (c : call) s :
  precheck_of c = unchecked -> creating c = false ->
  (forall d s', run fuel c s <> Abort d s') /\
  fdes (final (run fuel c s)) = fdes s /\
  exists evs,
    history (final (run fuel c s)) = evs ++ history s /\
    set_masks evs = [].
Proof.
  intros Hpre Hcreating.
  destruct (run_untracked_unchecked fuel c Hpre Hcreating) as [Hun Hnever].
  split; [exact (Hnever s)|exact (Hun s)].
Qed.

(** *** Duplicates *)

Lemma precheck_rejected fuel c fd s :
  XAPIAND_CHECK_IO_FDES B = true ->
  fd <> -1 -> XAPIAND_MINIMUM_FILE_DESCRIPTOR B <= fd ->
  tracked s fd = Unopened \/ tracked s fd = Closed ->
  precheck_of c = opened fd \/ precheck_of c = opened_socket fd ->
  rejected (run fuel c s).
Proof.
  intros Hon Hfd Hmin Hstate Hpre.
  destruct c; destruct Hpre as [Hpre|Hpre]; try discriminate;
    injection Hpre as ->; cbn [run];
    unfold lseek, fcntl, fstat, dup, dup2, shutdown, send, sendto, recv,
      recvfrom, getsockopt, setsockopt, listen, accept, bind, connect, fsync,
      full_fsync, fallocate, fadvise;
    platform_cases;
    apply seq_rejected;
    unfold CHECK_OPENED, CHECK_OPENED_SOCKET, when_tracking;
    rewrite Hon; apply check_rejected; try assumption;
    now destruct Hstate as [-> | ->].
Qed.

Lemma prechecked_call_goes_through msg fd function line p s n :
  XAPIAND_CHECK_IO_FDES B = true ->
  fd <> -1 -> XAPIAND_MINIMUM_FILE_DESCRIPTOR B <= fd ->
  tracked s fd = OpenFile \/ tracked s fd = OpenSocket ->
  kernel_gives p s n ->
  exists s',
    seq (CHECK_OPENED msg fd function line) (fun _ => invoke p) s = Ret n s' /\
    forall fd', tracked s' fd' = tracked s fd'.
Proof.
  intros Hon Hfd Hmin Hstate Hgives.
  assert (Hpass :
    CHECK_OPENED msg fd function line s
    = Ret tt (register fd (Z.lor (tracked s fd) 0)
                (note (Checked fd OPENED CLOSED 0) s))).
  { unfold CHECK_OPENED, when_tracking. rewrite Hon.
    rewrite check_accepts; [reflexivity|assumption..|].
    now destruct Hstate as [-> | ->]. }
  destruct (CHECK_OPENED_leaves_tracker msg fd function line s) as [Hpre _].
  rewrite Hpass in Hpre. cbn [final] in Hpre.
  rewrite (seq_step _ _ _ _ _ Hpass).
  destruct (invoke_gives p
              (register fd (Z.lor (tracked s fd) 0)
                 (note (Checked fd OPENED CLOSED 0) s)) n Hgives)
    as (s' & Hcall & Hf).
  exists s'. split; [exact Hcall|]. intros fd'.
  now rewrite (tracked_fdes _ _ fd' Hf).
Qed.

Lemma prechecked_refusal msg fd function line p s :
  XAPIAND_CHECK_IO_FDES B = true ->
  fd <> -1 -> XAPIAND_MINIMUM_FILE_DESCRIPTOR B <= fd ->
  tracked s fd = Unopened \/ tracked s fd = Closed ->
  let o := seq (CHECK_OPENED msg fd function line) (fun _ => invoke p) s in
  rejected o /\ kernel_untouched s (final o).
Proof.
  intros Hon Hfd Hmin Hstate o.
  assert (Hrejected : rejected o).
  { apply seq_rejected. unfold CHECK_OPENED, when_tracking. rewrite Hon.
    apply check_rejected; try assumption.
    now destruct Hstate as [-> | ->]. }
  split; [exact Hrejected|].
  destruct Hrejected as (msg' & fd' & function' & line' & s' & Hrun).
  rewrite Hrun. cbn [final].
  eapply prechecked_abort in Hrun;
    [|apply CHECK_OPENED_tracker_only|apply invoke_never_aborts].
  apply Hrun.
Qed.

(** X10.  [dup] and [dup2] check the descriptor they are given and
    register nothing for the one they return.  In a build that tracks
    descriptors, for a descriptor [fd] at or above the minimum: when the
    tracker has [fd] as unopened or closed, [dup] and [dup2] are refused
    and the kernel is not called; when it has [fd] as open, they return
    what the kernel's [dup] or [dup2] gives and every descriptor is
    tracked as before; so the duplicate is tracked after the call as it
    was before, and a duplicate that the tracker has as unopened or closed
    is refused by the next wrapper with a pre-check that is handed it
    (a wrapper whose body is in the header for the build at hand). *)
Theorem duplicates_are_not_registered (fuel : nat) (fd fd2 : Z) s :
  XAPIAND_CHECK_IO_FDES B = true ->
  fd <> -1 -> XAPIAND_MINIMUM_FILE_DESCRIPTOR B <= fd ->
  (tracked s fd = Unopened \/ tracked s fd = Closed ->
   (rejected (dup fd s) /\ kernel_untouched s (final (dup fd s))) /\
   (rejected (dup2 fd fd2 s) /\
    kernel_untouched s (final (dup2 fd fd2 s)))) /\
  (tracked s fd = OpenFile \/ tracked s fd = OpenSocket ->
   forall n,
     (kernel_gives (sys_dup fd) s n ->
      exists s',
        dup fd s = Ret n s' /\ forall fd', tracked s' fd' = tracked s fd') /\
     (kernel_gives (sys_dup2 fd fd2) s n ->
      exists s',
        dup2 fd fd2 s = Ret n s' /\
        forall fd', tracked s' fd' = tracked s fd')) /\
  (forall n s',
     n <> -1 -> XAPIAND_MINIMUM_FILE_DESCRIPTOR B <= n ->
     tracked s n = Unopened \/ tracked s n = Closed ->
     dup fd s = Ret n s' \/ dup2 fd fd2 s = Ret n s' ->
     tracked s' n = tracked s n /\
     forall c,
       defined_here c = true ->
       precheck_of c = opened n \/ precheck_of c = opened_socket n ->
       rejected (run fuel c s')).
Proof.
  intros Hon Hfd Hmin. split; [|split].
  - intros Hstate. split; unfold dup, dup2;
      now apply prechecked_refusal.
  - intros Hstate n. split; intros Hgives; unfold dup, dup2;
      now apply prechecked_call_goes_through.
  - intros n s' Hn Hnmin Hstate Hdup.
    assert (Hsame : tracked s' n = tracked s n).
    { destruct Hdup as [Hdup|Hdup].
      - destruct (run_leaves_tracker fuel (io_dup fd) eq_refl s) as [Htr _].
        cbn [run] in Htr. rewrite Hdup in Htr. apply Htr.
      - destruct (run_leaves_tracker fuel (io_dup2 fd fd2) eq_refl s)
          as [Htr _].
        cbn [run] in Htr. rewrite Hdup in Htr. apply Htr. }
    split; [exact Hsame|]. intros c _ Hpre.
    apply (precheck_rejected fuel c n); try assumption.
    now rewrite Hsame.
Qed.

(** *** No false alarm *)

Lemma accepted_then_never_aborts {A} (pre : io unit) (body : io A) s s1 :
  pre s = Ret tt s1 -> never_aborts body ->
  forall d s', seq pre (fun _ => body) s <> Abort d s'.
Proof.
  intros Hpre Hbody d s'. unfold seq. rewrite Hpre. apply Hbody.
Qed.

Lemma precheck_accepted fuel c fd s :
  XAPIAND_CHECK_IO_FDES B = true ->
  fd <> -1 -> XAPIAND_MINIMUM_FILE_DESCRIPTOR B <= fd ->
  tracked s fd = OpenSocket ->
  creating c = false ->
  precheck_of c = opened fd \/ precheck_of c = opened_socket fd ->
  forall d s', run fuel c s <> Abort d s'.
Proof.
  intros Hon Hfd Hmin Hstate Hcreating Hpre.
  destruct c; try discriminate; destruct Hpre as [Hpre|Hpre];
    try discriminate; injection Hpre as ->; cbn [run];
    unfold lseek, fcntl, unchecked_fcntl, fstat, dup, dup2, shutdown, send,
      sendto, recv, recvfrom, getsockopt, setsockopt, listen, bind, connect,
      fsync, unchecked_fsync, full_fsync, unchecked_full_fsync, fallocate,
      fadvise;
    platform_cases;
    (eapply accepted_then_never_aborts;
     [ unfold CHECK_OPENED, CHECK_OPENED_SOCKET, when_tracking;
       rewrite Hon; apply check_accepts;
       [assumption..|now rewrite Hstate]
     | harmless ]).
Qed.

(** X11.  No false alarm after a creation: a descriptor that [socket] or
    [accept] returned, and that the tracker had as unopened, is tracked as
    an open socket, and no later wrapper with a pre-check on it, file or
    socket operation alike, whose body is in the header for the build at
    hand, is stopped by the tracker. *)
Theorem created_sockets_pass_the_prechecks (fuel : nat) (fd : Z) s s1 :
  XAPIAND_CHECK_IO_FDES B = true ->
  fd <> -1 -> XAPIAND_MINIMUM_FILE_DESCRIPTOR B <= fd ->
  tracked s fd = Unopened ->
  (exists domain type protocol, socket domain type protocol s = Ret fd s1) \/
  (exists listening address address_len,
     accept fuel listening address address_len s = Ret fd s1) ->
  tracked s1 fd = OpenSocket /\
  forall fuel' c,
    defined_here c = true ->
    creating c = false ->
    precheck_of c = opened fd \/ precheck_of c = opened_socket fd ->
    forall d s', run fuel' c s1 <> Abort d s'.
Proof.
  intros Hon Hfd Hmin Hfresh Hcreated.
  assert (Hreg : exists p, registers_on_success OpenSocket p s (Ret fd s1)).
  { destruct Hcreated as [(domain & type & protocol & Hrun)
                         |(listening & address & address_len & Hrun)].
    - exists (sys_socket domain type protocol). rewrite <- Hrun.
      unfold socket, CHECK_OPEN_SOCKET.
      apply registration_after;
        [assumption|reflexivity|apply invoke_reports
        |apply invoke_leaves_tracker].
    - exists (sys_accept listening address address_len). rewrite <- Hrun.
      unfold accept.
      eapply registration_after_precheck;
        [apply CHECK_OPENED_SOCKET_leaves_tracker|intros s2].
      unfold CHECK_OPEN_SOCKET.
      apply registration_after; [assumption|reflexivity|native|kernel_only]. }
  destruct Hreg as (p & _ & _ & Hok).
  destruct (Hok Hfd) as (Hnew & _ & _). rewrite Hfresh in Hnew.
  split; [exact Hnew|]. intros fuel' c _ Hcreating Hpre.
  now apply (precheck_accepted fuel' c fd).
Qed.

End Header.

(** ** The theorems at work, and where the specification departs *)

(** The labels of the [switch] are distinct on Linux and on Darwin. *)
Lemma switch_compiles_linux : switch_compiles linux_errno.
Proof.
  unfold switch_compiles. apply (bool_decide_unpack _). vm_compute. exact I.
Defined.

Lemma switch_compiles_darwin : switch_compiles darwin_errno.
Proof.
  unfold switch_compiles. apply (bool_decide_unpack _). vm_compute. exact I.
Defined.

(** With the flag clear, a [recv] interrupted once is invoked again all the
    same, and the caller gets the 7 bytes of the second invocation, not the
    interruption. *)
Lemma TEMP_FAILURE_RETRY_flag_clear_counterexample :
  let recv := invoke scripted (sys_recv 5 0 16 0) in
  let s := boot false [Failed 4; Done 7] in
  ignore_intr s = false /\
  EINTR linux_errno = 4 /\
  recv s
  = Ret (-1)
      {| errno := 4; ignore_intr := false; fdes := ∅;
         history := [Called (sys_recv 5 0 16 0) (-1) 4];
         os_state := [Done 7] |} /\
  TEMP_FAILURE_RETRY linux_errno 2 recv s
  = Ret 7
      {| errno := 4; ignore_intr := false; fdes := ∅;
         history := [Called (sys_recv 5 0 16 0) 7 4;
                     Called (sys_recv 5 0 16 0) (-1) 4];
         os_state := [] |}.
Proof. repeat split. Qed.

Lemma TEMP_FAILURE_RETRY_retries_whatever_the_flag_witness :
  let recv := invoke scripted (sys_recv 5 0 16 0) in
  let s := boot false [Failed 4; Done 7] in
  let s1 :=
    {| errno := 4; ignore_intr := false; fdes := ∅;
       history := [Called (sys_recv 5 0 16 0) (-1) 4];
       os_state := [Done 7] |} in
  let s2 :=
    {| errno := 4; ignore_intr := false; fdes := ∅;
       history := [Called (sys_recv 5 0 16 0) 7 4;
                   Called (sys_recv 5 0 16 0) (-1) 4];
       os_state := [] |} in
  recv s = Ret (-1) s1 /\
  errno s1 = EINTR linux_errno /\
  ignore_intr s1 = false /\
  settles linux_errno recv 0 s1 7 s2 /\
  TEMP_FAILURE_RETRY linux_errno 2 recv s
  = TEMP_FAILURE_RETRY linux_errno 1 recv s1 /\
  TEMP_FAILURE_RETRY linux_errno 2 recv s = Ret 7 s2 /\
  ~ interrupted linux_errno 7 s2.
Proof.
  intros recv s s1 s2.
  assert (Hcall : recv s = Ret (-1) s1) by reflexivity.
  assert (Hsettles : settles linux_errno recv 0 s1 7 s2).
  { apply settles_now; [reflexivity|]. intros [Hr _]. discriminate Hr. }
  destruct (TEMP_FAILURE_RETRY_retries_whatever_the_flag linux_errno recv
              s s1 false Hcall eq_refl eq_refl 1%nat)
    as (Hagain & Henough & Honly).
  assert (Hrun : TEMP_FAILURE_RETRY linux_errno 2 recv s = Ret 7 s2)
    by (apply (Henough O); [exact Hsettles|repeat constructor]).
  repeat split; try assumption. exact (proj1 (Honly _ _ Hrun)).
Defined.

Lemma TEMP_FAILURE_RETRY_returns_eventual_result_witness :
  let c := sys_recv 5 0 16 0 in
  let s := boot true [Failed 4; Failed 4; Done 7] in
  let s' :=
    {| errno := 4; ignore_intr := true; fdes := ∅;
       history := [Called c 7 4; Called c (-1) 4; Called c (-1) 4];
       os_state := [] |} in
  ignore_intr s = true /\
  settles linux_errno (invoke scripted c) 2 s 7 s' /\
  (2 < 3)%nat /\
  (TEMP_FAILURE_RETRY linux_errno 3 (invoke scripted c) s = Ret 7 s' /\
   ~ interrupted linux_errno 7 s') /\
  CHECK_OPENED_SOCKET release_build "during recv()" 5 "recv" 202 s
  = Ret tt s /\
  recv linux_errno release_build scripted 3 5 0 16 0 s = Ret 7 s'.
Proof.
  intros c s s'.
  assert (Hsettles : settles linux_errno (invoke scripted c) 2 s 7 s').
  { eapply settles_later; [reflexivity|reflexivity|].
    eapply settles_later; [reflexivity|reflexivity|].
    apply settles_now; [reflexivity|]. intros [Hr _]. discriminate Hr. }
  assert (Hfuel : (2 < 3)%nat) by (repeat constructor).
  destruct (TEMP_FAILURE_RETRY_returns_eventual_result linux_errno
              release_build scripted c 2 s 7 s' 3 eq_refl Hsettles Hfuel)
    as (Hloop & _ & Hrecv).
  split; [reflexivity|]. split; [exact Hsettles|]. split; [exact Hfuel|].
  split; [exact Hloop|]. split; [reflexivity|].
  now apply Hrecv.
Defined.

Lemma ignored_errorno_by_channel_witness :
  let s := boot false [] in
  switch_compiles linux_errno /\
  ((113 = EAGAIN linux_errno \/ 113 = EWOULDBLOCK linux_errno ->
    (ignored_errorno linux_errno s 113 false false true = Ignore <->
     false = true)) /\
   (113 = EPIPE linux_errno \/ 113 = EINPROGRESS linux_errno ->
    (ignored_errorno linux_errno s 113 false false true = Ignore <->
     false = true)) /\
   (In 113 (connectionless_routing linux_errno) ->
    (ignored_errorno linux_errno s 113 false false true = Ignore <->
     true = true))).
Proof.
  intros s. split; [exact switch_compiles_linux|].
  exact (ignored_errorno_by_channel linux_errno s 113 false false true
           switch_compiles_linux).
Defined.

Lemma ignored_errorno_total_witness :
  let s := boot true [] in
  9 <> EINTR linux_errno /\
  ~ In 9 (map fst (case_labels linux_errno)) /\
  ignored_errorno linux_errno s 9 true true true = Propagate /\
  ignored_errorno linux_errno s (EINTR linux_errno) true true true = Ignore.
Proof.
  intros s.
  destruct (ignored_errorno_total linux_errno s 9 true true true)
    as (_ & _ & Hintr & Hother & _).
  assert (Hout : ~ In 9 (map fst (case_labels linux_errno))).
  { cbn. intuition discriminate. }
  split; [discriminate|]. split; [exact Hout|].
  split; [exact (Hother Hout)|]. now apply Hintr.
Defined.



(** On a platform with [fsync] only, [full_fsync] calls [fsync] and returns
    its failure; on a platform with [F_FULLFSYNC], [fsync] does not use it;
    on a platform with [fdatasync] and [fsync], [full_fsync] calls
    [fdatasync]. *)
Lemma sync_fallback_counterexample :
  F_FULLFSYNC fsync_only_build = None /\
  HAVE_FDATASYNC fsync_only_build = false /\
  full_fsync linux_errno fsync_only_build scripted 1 5 (boot false [Failed 5])
  = Ret (-1)
      {| errno := 5; ignore_intr := false; fdes := ∅;
         history := [Called (sys_fsync 5) (-1) 5]; os_state := [] |} /\
  F_FULLFSYNC full_fsync_build = Some 51 /\
  fsync darwin_errno full_fsync_build scripted 1 5 (boot false [Done 0])
  = Ret 0
      {| errno := 0; ignore_intr := false; fdes := ∅;
         history := [Called (sys_fsync 5) 0 0]; os_state := [] |} /\
  HAVE_FSYNC release_build = true /\
  full_fsync linux_errno release_build scripted 1 5 (boot false [Done 0])
  = Ret 0
      {| errno := 0; ignore_intr := false; fdes := ∅;
         history := [Called (sys_fdatasync 5) 0 0]; os_state := [] |}.
Proof. repeat split. Qed.

Lemma sync_fallback_chain_witness :
  let s := boot false [Failed 5] in
  unchecked_full_fsync linux_errno bare_build scripted 1 5 s = Ret 0 s /\
  unchecked_fsync linux_errno bare_build scripted 1 5 s = Ret 0 s /\
  CHECK_OPENED bare_build "during full_fsync()" 5 "full_fsync" 277 s
  = Ret tt s /\
  full_fsync linux_errno bare_build scripted 1 5 s
  = unchecked_full_fsync linux_errno bare_build scripted 1 5 s.
Proof.
  intros s.
  destruct (sync_fallback_chain linux_errno bare_build scripted 0 5 s)
    as (Hfull & Hsync & Hchecked & _).
  split; [exact Hfull|]. split; [exact Hsync|]. split; [reflexivity|].
  now apply Hchecked.
Defined.

(** [posix_fadvise] fails with the error number 9 and [fadvise] returns 0;
    it succeeds with 0 and [fadvise] returns 1. *)
Lemma fadvise_counterexample :
  fadvise release_build scripted 5 0 0 2 (boot false [Done 9])
  = Ret 0
      {| errno := 0; ignore_intr := false; fdes := ∅;
         history := [Called (sys_posix_fadvise 5 0 0 2) 9 0];
         os_state := [] |} /\
  fadvise release_build scripted 5 0 0 2 (boot false [Done 0])
  = Ret 1
      {| errno := 0; ignore_intr := false; fdes := ∅;
         history := [Called (sys_posix_fadvise 5 0 0 2) 0 0];
         os_state := [] |}.
Proof. repeat split. Qed.

Lemma wrappers_hand_on_the_native_result_witness :
  let c := io_recv 5 0 16 0 in
  let s := boot true [Failed 4; Failed 32] in
  let s' :=
    {| errno := 32; ignore_intr := true; fdes := ∅;
       history := [Called (sys_recv 5 0 16 0) (-1) 32;
                   Called (sys_recv 5 0 16 0) (-1) 4];
       os_state := [] |} in
  defined_here release_build c = true /\
  run linux_errno release_build scripted 2 c s = Ret (-1) s' /\
  (exists evs,
     history s' = evs ++ history s /\
     match underlying release_build c with
     | Some p =>
         exists native,
           last_call evs = Some (p, native, errno s') /\
           -1 = handed_on c native
     | None => last_call evs = None /\ errno s' = errno s /\ -1 = 0
     end) /\
  (retried c = true -> ~ interrupted linux_errno (-1) s').
Proof.
  intros c s s'. split; [reflexivity|]. split; [reflexivity|].
  exact (wrappers_hand_on_the_native_result linux_errno release_build scripted
           2 c s eq_refl).
Defined.

Lemma creation_registers_on_success_only_witness :
  let s := boot false [Done 5] in
  let failing := boot false [Failed 24] in
  let listening := tracking 5 3 [Failed 4; Done 6] in
  XAPIAND_CHECK_IO_FDES diagnostic_build = true /\
  registers_on_success OpenSocket (sys_socket 2 1 0) s
    (socket diagnostic_build scripted 2 1 0 s) /\
  kernel_gives scripted (sys_socket 2 1 0) s 5 /\
  (exists s', socket diagnostic_build scripted 2 1 0 s = Ret 5 s' /\
              tracked s' 5 = OpenSocket) /\
  kernel_gives scripted (sys_socket 2 1 0) failing (-1) /\
  (exists s', socket diagnostic_build scripted 2 1 0 failing = Ret (-1) s' /\
              forall fd, tracked s' fd = tracked failing fd) /\
  registers_on_success OpenSocket (sys_accept 5 0 0) listening
    (accept linux_errno diagnostic_build scripted 2 5 0 0 listening) /\
  (exists s', accept linux_errno diagnostic_build scripted 2 5 0 0 listening
              = Ret 6 s' /\
              tracked s' 6 = OpenSocket) /\
  kernel_gives scripted (sys_open 4096 0 420) s 5 /\
  (exists s', open diagnostic_build scripted 4096 0 420 s = Ret 5 s' /\
              tracked s' 5 = OpenFile).
Proof.
  intros s failing listening.
  assert (Hmin5 : XAPIAND_MINIMUM_FILE_DESCRIPTOR diagnostic_build <= 5)
    by discriminate.
  assert (Hmin6 : XAPIAND_MINIMUM_FILE_DESCRIPTOR diagnostic_build <= 6)
    by discriminate.
  assert (H5 : 5 <> -1) by discriminate.
  assert (H6 : 6 <> -1) by discriminate.
  destruct (creation_registers_on_success_only linux_errno diagnostic_build
              scripted 2 s eq_refl) as (Hsocket & _ & Hopen).
  destruct (creation_registers_on_success_only linux_errno diagnostic_build
              scripted 2 failing eq_refl) as (Hfailing & _).
  destruct (creation_registers_on_success_only linux_errno diagnostic_build
              scripted 2 listening eq_refl) as (_ & Haccept & _).
  pose (s0 := final (CHECK_OPENED_SOCKET diagnostic_build
                       "during accept()" 5 "accept" 237 listening)).
  pose (s1 := final (invoke scripted (sys_accept 5 0 0) s0)).
  pose (s2 := final (invoke scripted (sys_accept 5 0 0) s1)).
  assert (Hsettles :
    settles linux_errno (invoke scripted (sys_accept 5 0 0)) 1 s0 6 s2).
  { apply settles_later with s1; [reflexivity|reflexivity|].
    apply settles_now; [reflexivity|]. intros [Hr _]. discriminate Hr. }
  assert (Hfuel : (1 < 2)%nat) by (repeat constructor).
  destruct (proj2 (Hsocket 2 1 0) 5 eq_refl) as [_ Hcreated].
  destruct (Hcreated H5 Hmin5 eq_refl) as (s5 & Hrun5 & Hnew5 & _).
  destruct (proj2 (Hfailing 2 1 0) (-1) eq_refl) as [Hfailed _].
  destruct (Hfailed eq_refl) as (sf & Hrunf & Hsame).
  destruct (proj2 (Haccept 5 0 0) s0 1%nat 6 s2 eq_refl Hsettles Hfuel)
    as [_ Haccepted].
  destruct (Haccepted H6 Hmin6 eq_refl) as (s6 & Hrun6 & Hnew6 & _).
  destruct (Hopen 4096 0 420 5 eq_refl) as [_ Hopened].
  destruct (Hopened H5 Hmin5 eq_refl) as (so & Hruno & Hnewo & _).
  split; [reflexivity|].
  split; [exact (proj1 (Hsocket 2 1 0))|].
  split; [reflexivity|]. split; [now exists s5|].
  split; [reflexivity|]. split; [now exists sf|].
  split; [exact (proj1 (Haccept 5 0 0))|].
  split; [now exists s6|].
  split; [reflexivity|]. now exists so.
Defined.

Lemma minimum_descriptor_guard_witness :
  let s := boot false [] in
  1 <> -1 /\
  1 < XAPIAND_MINIMUM_FILE_DESCRIPTOR diagnostic_build /\
  XAPIAND_MINIMUM_FILE_DESCRIPTOR diagnostic_build = 3 /\
  exists s',
    check diagnostic_build "while opening as file" 1 0 5 1 "open" 131 s
    = Abort (ConfigurationError 1) s' /\
    forall fd', tracked s' fd' = tracked s fd'.
Proof.
  intros s.
  assert (Hfd : 1 <> -1) by discriminate.
  assert (Hlow : 1 < XAPIAND_MINIMUM_FILE_DESCRIPTOR diagnostic_build)
    by reflexivity.
  split; [exact Hfd|]. split; [exact Hlow|]. split; [reflexivity|].
  exact (proj1 (minimum_descriptor_guard diagnostic_build
                  "while opening as file" 1 0 5 1 "open" 131 s Hfd Hlow)).
Defined.

Lemma prechecks_leave_the_tracker_alone_witness :
  let c := io_lseek 5 0 0 in
  let s := tracking 5 1 [Failed 29] in
  creating c = false /\
  defined_here diagnostic_build c = true /\
  (forall fd,
     tracked (final (run linux_errno diagnostic_build scripted 1 c s)) fd
     = tracked s fd) /\
  exists evs,
    history (final (run linux_errno diagnostic_build scripted 1 c s))
    = evs ++ history s /\
    Forall (fun set => set = 0) (set_masks evs) /\
    (XAPIAND_CHECK_IO_FDES diagnostic_build = true ->
     precheck_of c <> unchecked -> set_masks evs = [0]).
Proof.
  intros c s. split; [reflexivity|]. split; [reflexivity|].
  exact (prechecks_leave_the_tracker_alone linux_errno diagnostic_build
           scripted 1 c s eq_refl eq_refl).
Defined.

(** *** The further properties at work *)

Lemma interrupt_storm_never_returns_witness :
  let c := sys_connect 5 0 16 in
  let s :=
    {| errno := 0; ignore_intr := true; fdes := ∅; history := [];
       os_state := tt |} in
  (forall e k, exists k', storm c e k = (-1, EINTR linux_errno, k')) /\
  exists s',
    TEMP_FAILURE_RETRY linux_errno 3 (invoke storm c) s = Spin s' /\
    history s' = repeat (Called c (-1) (EINTR linux_errno)) 3 ++ history s.
Proof.
  intros c s.
  assert (Hstorm : forall e k,
            exists k', storm c e k = (-1, EINTR linux_errno, k'))
    by (intros e k; now exists k).
  split; [exact Hstorm|].
  exact (interrupt_storm_never_returns linux_errno storm c Hstorm 3%nat s).
Defined.

Lemma ignored_errorno_monotone_witness :
  let s := boot false [] in
  let s2 := boot true [] in
  (ignore_intr s = true -> ignore_intr s2 = true) /\
  (true = true -> true = true) /\
  (false = true -> true = true) /\
  (false = true -> false = true) /\
  ignored_errorno linux_errno s 11 true false false = Ignore /\
  ignored_errorno linux_errno s2 11 true true false = Ignore.
Proof.
  intros s s2.
  assert (H1 : ignore_intr s = true -> ignore_intr s2 = true)
    by (intros _; reflexivity).
  assert (H2 : true = true -> true = true) by trivial.
  assert (H3 : false = true -> true = true) by trivial.
  assert (H4 : false = true -> false = true) by trivial.
  assert (H5 : ignored_errorno linux_errno s 11 true false false = Ignore)
    by reflexivity.
  split; [exact H1|]. split; [exact H2|]. split; [exact H3|].
  split; [exact H4|]. split; [exact H5|].
  exact (ignored_errorno_monotone linux_errno s s2 11 true false false
           true true false H1 H2 H3 H4 H5).
Defined.

Lemma ignored_errorno_ignores_the_labels_only_witness :
  let s := boot true [] in
  ignore_intr s = true /\
  In 54 (ignorable darwin_errno) /\
  ignored_errorno darwin_errno s 54 true true true = Ignore /\
  (ignored_errorno darwin_errno s 104 true true true = Ignore ->
   In 104 (ignorable darwin_errno)).
Proof.
  intros s.
  assert (Hin : In 54 (ignorable darwin_errno)) by (cbn; tauto).
  destruct (ignored_errorno_ignores_the_labels_only darwin_errno s 54
              true true true) as [_ Hall].
  destruct (ignored_errorno_ignores_the_labels_only darwin_errno s 104
              true true true) as [Honly _].
  split; [reflexivity|]. split; [exact Hin|].
  split; [exact (Hall eq_refl Hin)|exact Honly].
Defined.

Lemma wrappers_call_their_primitive_only_witness :
  let c := io_send 5 0 16 0 in
  let s := boot false [Failed 4; Failed 4; Done 16] in
  let s' :=
    {| errno := 4; ignore_intr := false; fdes := ∅;
       history := [Called (sys_send 5 0 16 0) 16 4;
                   Called (sys_send 5 0 16 0) (-1) 4;
                   Called (sys_send 5 0 16 0) (-1) 4];
       os_state := [] |} in
  defined_here release_build c = true /\
  run linux_errno release_build scripted 3 c s = Ret 16 s' /\
  exists evs,
    history s' = evs ++ history s /\
    match underlying release_build c with
    | Some p =>
        exists native n,
          calls evs
          = (p, native, errno s') :: repeat (p, -1, EINTR linux_errno) n /\
          (retried c = false -> n = O) /\
          16 = handed_on c native
    | None => calls evs = []
    end.
Proof.
  intros c s s'.
  assert (Hrun : run linux_errno release_build scripted 3 c s = Ret 16 s')
    by reflexivity.
  split; [reflexivity|]. split; [exact Hrun|].
  exact (wrappers_call_their_primitive_only linux_errno release_build
           scripted 3 c s 16 s' eq_refl Hrun).
Defined.

Lemma unretried_wrappers_show_the_interruption_witness :
  let c := io_dup2 5 6 in
  let s := boot true [Failed 4] in
  retried c = false /\
  underlying release_build c = Some (sys_dup2 5 6) /\
  handed_on c (-1) = -1 /\
  scripted (sys_dup2 5 6) (errno s) (os_state s)
  = (-1, EINTR linux_errno, []) /\
  match run linux_errno release_build scripted 1 c s with
  | Ret r s' => interrupted linux_errno r s' /\ os_state s' = []
  | Abort _ _ => XAPIAND_CHECK_IO_FDES release_build = true
  | Spin _ => False
  end.
Proof.
  intros c s. repeat (split; [reflexivity|]).
  exact (unretried_wrappers_show_the_interruption linux_errno release_build
           scripted 1 c (sys_dup2 5 6) s [] eq_refl eq_refl eq_refl eq_refl).
Defined.

Lemma stopped_before_the_kernel_witness :
  let c := io_lseek 5 0 0 in
  let s := boot false [Done 0] in
  let d := LifecycleViolation "during lseek()" 5 "lseek" 147 in
  let s' :=
    {| errno := 0; ignore_intr := false; fdes := ∅;
       history := [Checked 5 1 4 0]; os_state := [Done 0] |} in
  defined_here diagnostic_build c = true /\
  creating c = false /\
  run linux_errno diagnostic_build scripted 1 c s = Abort d s' /\
  XAPIAND_CHECK_IO_FDES diagnostic_build = true /\
  kernel_untouched s s' /\
  (precheck_of c = opened (about d) \/
   precheck_of c = opened_socket (about d)).
Proof.
  intros c s d s'.
  assert (Hrun : run linux_errno diagnostic_build scripted 1 c s = Abort d s')
    by reflexivity.
  split; [reflexivity|]. split; [reflexivity|]. split; [exact Hrun|].
  exact (stopped_before_the_kernel linux_errno diagnostic_build scripted
           1 c s d s' eq_refl eq_refl Hrun).
Defined.

Lemma retried_failure_is_classified_without_the_flag_witness :
  let c := io_recv 5 0 16 0 in
  let s := boot true [Failed 4; Failed 104] in
  let s' :=
    {| errno := 104; ignore_intr := true; fdes := ∅;
       history := [Called (sys_recv 5 0 16 0) (-1) 104;
                   Called (sys_recv 5 0 16 0) (-1) 4];
       os_state := [] |} in
  defined_here release_build c = true /\
  retried c = true /\
  run linux_errno release_build scripted 2 c s = Ret (-1) s' /\
  errno s' <> EINTR linux_errno /\
  forall (s2 : process (list reply)) again tcp udp,
    ignored_errorno linux_errno s2 (errno s') again tcp udp
    = ignored_errorno linux_errno s' (errno s') again tcp udp.
Proof.
  intros c s s'.
  assert (Hrun : run linux_errno release_build scripted 2 c s = Ret (-1) s')
    by reflexivity.
  split; [reflexivity|]. split; [reflexivity|]. split; [exact Hrun|].
  exact (retried_failure_is_classified_without_the_flag linux_errno
           release_build scripted 2 c s s' eq_refl eq_refl Hrun).
Defined.

Lemma production_build_never_tracks_witness :
  let c := io_socket 2 1 0 in
  let s := boot false [Done 5] in
  XAPIAND_CHECK_IO_FDES release_build = false /\
  fdes (final (run linux_errno release_build scripted 1 c s)) = fdes s /\
  exists evs,
    history (final (run linux_errno release_build scripted 1 c s))
    = evs ++ history s /\
    set_masks evs = [].
Proof.
  intros c s. split; [reflexivity|].
  exact (production_build_never_tracks linux_errno release_build scripted
           1 c s eq_refl).
Defined.

Lemma unchecked_wrappers_bypass_the_tracker_witness :
  let c := io_unchecked_fsync 1 in
  let s := boot false [Done 0] in
  precheck_of c = unchecked /\
  creating c = false /\
  1 < XAPIAND_MINIMUM_FILE_DESCRIPTOR diagnostic_build /\
  (forall d s',
     run linux_errno diagnostic_build scripted 1 c s <> Abort d s') /\
  fdes (final (run linux_errno diagnostic_build scripted 1 c s)) = fdes s /\
  exists evs,
    history (final (run linux_errno diagnostic_build scripted 1 c s))
    = evs ++ history s /\
    set_masks evs = [].
Proof.
  intros c s. repeat (split; [reflexivity|]).
  exact (unchecked_wrappers_bypass_the_tracker linux_errno diagnostic_build
           scripted 1 c s eq_refl eq_refl).
Defined.

Lemma duplicates_are_not_registered_witness :
  let s := tracking 5 1 [Done 6; Done 0] in
  let s' := final (dup diagnostic_build scripted 5 s) in
  let unopened := boot false [Done 6] in
  XAPIAND_CHECK_IO_FDES diagnostic_build = true /\
  5 <> -1 /\
  XAPIAND_MINIMUM_FILE_DESCRIPTOR diagnostic_build <= 5 /\
  tracked unopened 5 = Unopened /\
  rejected (dup diagnostic_build scripted 5 unopened) /\
  kernel_untouched unopened
    (final (dup diagnostic_build scripted 5 unopened)) /\
  rejected (dup2 diagnostic_build scripted 5 7 unopened) /\
  tracked s 5 = OpenFile /\
  kernel_gives scripted (sys_dup 5) s 6 /\
  (exists s1, dup diagnostic_build scripted 5 s = Ret 6 s1 /\
              forall fd', tracked s1 fd' = tracked s fd') /\
  6 <> -1 /\
  XAPIAND_MINIMUM_FILE_DESCRIPTOR diagnostic_build <= 6 /\
  tracked s 6 = Unopened /\
  dup diagnostic_build scripted 5 s = Ret 6 s' /\
  tracked s' 6 = tracked s 6 /\
  defined_here diagnostic_build (io_fstat 6 0) = true /\
  rejected (run linux_errno diagnostic_build scripted 1 (io_fstat 6 0) s').
Proof.
  intros s s' unopened.
  assert (H5 : 5 <> -1) by discriminate.
  assert (H6 : 6 <> -1) by discriminate.
  assert (Hmin5 : XAPIAND_MINIMUM_FILE_DESCRIPTOR diagnostic_build <= 5)
    by discriminate.
  assert (Hmin6 : XAPIAND_MINIMUM_FILE_DESCRIPTOR diagnostic_build <= 6)
    by discriminate.
  assert (Hdup : dup diagnostic_build scripted 5 s = Ret 6 s')
    by reflexivity.
  destruct (duplicates_are_not_registered linux_errno diagnostic_build
              scripted 1 5 7 unopened eq_refl H5 Hmin5)
    as (Hrefused & _ & _).
  destruct (Hrefused (or_introl eq_refl))
    as ((Hrejected & Huntouched) & (Hrejected2 & _)).
  destruct (duplicates_are_not_registered linux_errno diagnostic_build
              scripted 1 5 7 s eq_refl H5 Hmin5)
    as (_ & Hthrough & Hduplicate).
  destruct (Hthrough (or_introl eq_refl) 6) as [Hgoes _].
  destruct (Hduplicate 6 s' H6 Hmin6 (or_introl eq_refl) (or_introl Hdup))
    as [Hsame Hnext].
  split; [reflexivity|]. split; [exact H5|]. split; [exact Hmin5|].
  split; [reflexivity|]. split; [exact Hrejected|].
  split; [exact Huntouched|]. split; [exact Hrejected2|].
  split; [reflexivity|]. split; [reflexivity|].
  split; [exact (Hgoes eq_refl)|].
  split; [exact H6|]. split; [exact Hmin6|]. split; [reflexivity|].
  split; [exact Hdup|]. split; [exact Hsame|]. split; [reflexivity|].
  apply Hnext; [reflexivity|now left].
Defined.

Lemma created_sockets_pass_the_prechecks_witness :
  let s := boot false [Done 5; Done 0] in
  let s1 := final (socket diagnostic_build scripted 2 1 0 s) in
  XAPIAND_CHECK_IO_FDES diagnostic_build = true /\
  5 <> -1 /\
  XAPIAND_MINIMUM_FILE_DESCRIPTOR diagnostic_build <= 5 /\
  tracked s 5 = Unopened /\
  socket diagnostic_build scripted 2 1 0 s = Ret 5 s1 /\
  tracked s1 5 = OpenSocket /\
  defined_here diagnostic_build (io_listen 5 8) = true /\
  defined_here diagnostic_build (io_fstat 5 0) = true /\
  (forall d s',
     run linux_errno diagnostic_build scripted 1 (io_listen 5 8) s1
     <> Abort d s') /\
  (forall d s',
     run linux_errno diagnostic_build scripted 1 (io_fstat 5 0) s1
     <> Abort d s').
Proof.
  intros s s1.
  assert (H5 : 5 <> -1) by discriminate.
  assert (Hmin : XAPIAND_MINIMUM_FILE_DESCRIPTOR diagnostic_build <= 5)
    by discriminate.
  assert (Hrun : socket diagnostic_build scripted 2 1 0 s = Ret 5 s1)
    by reflexivity.
  destruct (created_sockets_pass_the_prechecks linux_errno diagnostic_build
              scripted 1 5 s s1 eq_refl H5 Hmin eq_refl
              (or_introl (ex_intro _ 2 (ex_intro _ 1 (ex_intro _ 0 Hrun)))))
    as [Hopen Hpass].
  split; [reflexivity|]. split; [exact H5|]. split; [exact Hmin|].
  split; [reflexivity|]. split; [exact Hrun|]. split; [exact Hopen|].
  split; [reflexivity|]. split; [reflexivity|]. split.
  - apply Hpass; [reflexivity|reflexivity|now right].
  - apply Hpass; [reflexivity|reflexivity|now left].
Defined.

End io.
